(** * Vex: the three PRD extraction scripts

    [extract_prd.py], [extract_prd2.py] and [extract_prd_pages.py] open one
    PDF with PyPDF2, take the text of every page in order and store it as one
    file with page-break markers, one file with page headers, or one file per
    page.  The scripts are embedded below as programs of a small state and
    exception monad over a world made of a file system and the standard
    output; the properties of their output are proved afterwards. *)

From Stdlib Require Import NArith List String Ascii Lia DecimalN DecimalPos Sorted.
From stdpp Require Import base option list gmap.

Local Open Scope N_scope.

(** ** Python values *)

(** A Python [str] is a sequence of code points, a [bytes] a sequence of
    octets; an [int] that counts pages is a natural number without bound. *)
Abbreviation str := (list N) (only parsing).
Abbreviation bytes := (list N) (only parsing).

(** The code points of a literal made of ASCII characters. *)
Definition lit (s : string) : str :=
  map N_of_ascii (list_ascii_of_string s).

Definition LF : N := 10.
Definition CR : N := 13.

Inductive Exception : Type :=
  | OSError
  | UnicodeEncodeError
  | PdfReadError.

Inductive Outcome (A : Type) : Type :=
  | Returned (a : A)
  | Raised (e : Exception).
Arguments Returned {A} a.
Arguments Raised {A} e.

(** ** Formatting an [int] inside an f-string *)

Fixpoint digits (d : Decimal.uint) : str :=
  match d with
  | Decimal.Nil => []
  | Decimal.D0 d => 48 :: digits d
  | Decimal.D1 d => 49 :: digits d
  | Decimal.D2 d => 50 :: digits d
  | Decimal.D3 d => 51 :: digits d
  | Decimal.D4 d => 52 :: digits d
  | Decimal.D5 d => 53 :: digits d
  | Decimal.D6 d => 54 :: digits d
  | Decimal.D7 d => 55 :: digits d
  | Decimal.D8 d => 56 :: digits d
  | Decimal.D9 d => 57 :: digits d
  end.

(** [format(n)] for a non-negative [int]: its decimal digits. *)
Definition format_int (n : N) : str := digits (N.to_uint n).

(** ** Text files: encodings and newline translation *)

Inductive Platform : Type := posix | nt.

(** [os.linesep]. *)
Definition linesep (os : Platform) : str :=
  match os with
  | posix => [LF]
  | nt => [CR; LF]
  end.

(** [os.sep]: the solidus is code point 47, the reverse solidus 92. *)
Definition sep (os : Platform) : N :=
  match os with
  | posix => 47
  | nt => 92
  end.

Inductive Encoding : Type := utf_8 | utf_8_sig.

(** [codecs.BOM_UTF8]. *)
Definition BOM_UTF8 : bytes := [0xEF; 0xBB; 0xBF].

(** The UTF-8 form of one code point, as the codec computes it. *)
Definition utf_8_encode_char (c : N) : bytes :=
  if c <? 0x80 then [c]
  else if c <? 0x800 then
    [N.lor 0xC0 (N.shiftr c 6); N.lor 0x80 (N.land c 0x3F)]
  else if c <? 0x10000 then
    [N.lor 0xE0 (N.shiftr c 12);
     N.lor 0x80 (N.land (N.shiftr c 6) 0x3F);
     N.lor 0x80 (N.land c 0x3F)]
  else
    [N.lor 0xF0 (N.shiftr c 18);
     N.lor 0x80 (N.land (N.shiftr c 12) 0x3F);
     N.lor 0x80 (N.land (N.shiftr c 6) 0x3F);
     N.lor 0x80 (N.land c 0x3F)].

(** The strict error handler refuses surrogates; a code point above
    U+10FFFF is no member of a [str]. *)
Definition encodable (c : N) : bool :=
  (c <? 0xD800) || ((0xDFFF <? c) && (c <=? 0x10FFFF)).

(** A text file opened with [newline=None] writes every line feed as
    [os.linesep]; what results is encoded code point by code point. *)
Definition encode_char (os : Platform) (c : N) : bytes :=
  if c =? LF then linesep os else utf_8_encode_char c.

Definition encode_text (os : Platform) (s : str) : bytes :=
  flat_map (encode_char os) s.

(** ** The PDF library, seen from the scripts *)

Record PageObject : Type := { extract_text_result : Outcome str }.

(** [reader.pages] is a lazy sequence: the page tree of the document is
    read when the loop asks for the first page, and that can fail, as it
    does for a document that is encrypted. *)
Record PdfReader : Type := { pages_result : Outcome (list PageObject) }.

(** The pages of a document; one whose pages cannot be listed shows
    none. *)
Definition pages (reader : PdfReader) : list PageObject :=
  match pages_result reader with
  | Returned pgs => pgs
  | Raised _ => []
  end.

(** ** The world the scripts run in *)

Record World : Type := {
  fs : gmap (list N) (list N);   (* path to file content *)
  cwd : str;
  stdout : list str;             (* printed lines, oldest first *)
  syscalls : nat                 (* file-system calls made so far *)
}.

(** What the scripts do not decide: the platform, which file-system calls
    fail, how many octets of a file are on the disk when a write to it
    fails, and what the PDF library makes of the file at a path. *)
Record Env : Type := {
  os_name : Platform;
  io_fault : nat -> bool;
  accepted : nat -> nat;
  open_pdf : str -> str -> Outcome PdfReader   (* working directory, path *)
}.

(** Programs change the world and return or raise; the world reached when
    an exception is raised stays as it is. *)
Definition M (A : Type) : Type := World -> World * Outcome A.

#[global] Instance M_ret : MRet M := fun A a w => (w, Returned a).

#[global] Instance M_bind : MBind M := fun A B k c w =>
  match c w with
  | (w', Returned a) => k a w'
  | (w', Raised e) => (w', Raised e)
  end.

Definition raise {A : Type} (e : Exception) : M A := fun w => (w, Raised e).

Definition lift {A : Type} (r : Outcome A) : M A := fun w => (w, r).

Definition modify (f : World -> World) : M unit := fun w => (f w, Returned tt).

(** [try: body finally: cleanup]. *)
Definition finally {A : Type} (body : M A) (cleanup : M unit) : M A := fun w =>
  match body w with
  | (w', Returned a) => (_ ← cleanup; mret a) w'
  | (w', Raised e) => (_ ← cleanup; raise e) w'
  end.

(** [for x in xs: body], the loop state passed along explicitly. *)
Fixpoint for_each {X S : Type} (xs : list X) (body : X -> S -> M S) (s : S) : M S :=
  match xs with
  | [] => mret s
  | x :: xs' => s' ← body x s; for_each xs' body s'
  end.

(** [enumerate(xs)], counting from [i]. *)
Fixpoint enumerate_from {X : Type} (i : N) (xs : list X) : list (N * X) :=
  match xs with
  | [] => []
  | x :: xs' => (i, x) :: enumerate_from (i + 1) xs'
  end.

Definition enumerate {X : Type} (xs : list X) : list (N * X) := enumerate_from 0 xs.

(** A text file object: its path, its encoding, and whether its encoder
    is still at the start of the stream. *)
Record TextIOWrapper : Type := {
  name : str;
  encoding : Encoding;
  first : bool
}.

(** [ntpath.splitdrive] for a path that is no UNC path: the drive is
    what stands before a colon in second place, the colon included. *)
Definition splitdrive (p : str) : str * str :=
  match p with
  | c :: 58 :: rest => ([c; 58], rest)
  | _ => ([], p)
  end.

Section Runtime.

Variable env : Env.

Definition set_fs (m : gmap (list N) (list N)) (w : World) : World :=
  {| fs := m; cwd := cwd w; stdout := stdout w; syscalls := syscalls w |}.

(** One call into the file system: it is counted, and fails when the
    environment says so. *)
Definition syscall : M unit := fun w =>
  let w' := {| fs := fs w; cwd := cwd w; stdout := stdout w;
               syscalls := S (syscalls w) |} in
  if io_fault env (syscalls w) then (w', Raised OSError) else (w', Returned tt).

(** [os.chdir(path)].  The world keeps the directory, like every path,
    under the name the script gives it, and resolves no name against
    another: the scripts name their directory and their output files
    with a drive, as absolute paths of the platform they were written
    on. *)
Definition os_chdir (path : str) : M unit :=
  _ ← syscall;
  modify (fun w => {| fs := fs w; cwd := path; stdout := stdout w;
                      syscalls := syscalls w |}).

(** [os.path.join(a, b)] for a second component that is relative and
    has no drive, as the page file names are, and a first component that
    is no UNC path: [posixpath] puts a solidus between the two unless the
    first is empty or ends with one; [ntpath] sets the drive of the first
    aside and puts a reverse solidus between the two unless what is left
    of the first is empty or ends with a solidus of either kind. *)
Definition os_path_join (a b : str) : str :=
  match os_name env with
  | posix =>
      match last a with
      | None => b
      | Some c => if c =? 47 then a ++ b else a ++ 47 :: b
      end
  | nt =>
      match last (snd (splitdrive a)) with
      | None => a ++ b
      | Some c => if (c =? 47) || (c =? 92) then a ++ b else a ++ 92 :: b
      end
  end.

Definition os_path_getsize (path : str) : M N := fun w =>
  match fs w !! path with
  | Some data => (w, Returned (N.of_nat (length data)))
  | None => (w, Raised OSError)
  end.

Definition print (line : str) : M unit :=
  modify (fun w => {| fs := fs w; cwd := cwd w; stdout := stdout w ++ [line];
                      syscalls := syscalls w |}).

Definition PyPDF2_PdfReader (path : str) : M PdfReader := fun w =>
  (w, open_pdf env (cwd w) path).

(** [reader.pages], at the point where a loop starts to iterate it. *)
Definition reader_pages (reader : PdfReader) : M (list PageObject) :=
  lift (pages_result reader).

Definition extract_text (page : PageObject) : M str :=
  lift (extract_text_result page).

(** [open(path, 'w', encoding=enc)]: the file is created, or cut to
    length zero when it exists. *)
Definition open_w (path : str) (enc : Encoding) : M TextIOWrapper :=
  _ ← syscall;
  _ ← modify (fun w => set_fs (<[path := []]> (fs w)) w);
  mret {| name := path; encoding := enc; first := true |}.

(** The octets one [write] hands to the file: [utf-8-sig] puts the
    byte-order mark before the first of them. *)
Definition encode_chunk (f : TextIOWrapper) (s : str) : bytes :=
  match encoding f with
  | utf_8 => encode_text (os_name env) s
  | utf_8_sig =>
      if first f then BOM_UTF8 ++ encode_text (os_name env) s
      else encode_text (os_name env) s
  end.

Definition append (path : str) (data : bytes) (w : World) : World :=
  set_fs (<[path := default [] (fs w !! path) ++ data]> (fs w)) w.

(** What a failed write leaves of a file: of the octets handed to the
    file object so far, those of the failing call included, the first
    [n]. *)
Definition lose (path : str) (n : nat) (data : bytes) (w : World) : World :=
  set_fs (<[path := take n (default [] (fs w !! path) ++ data)]> (fs w)) w.

(** [f.write(s)]: the text is encoded, which fails as a whole on a
    surrogate, and the octets go to the end of the file.  The scripts
    ignore the number of characters that [write] returns; here it returns
    the file object in its new state.

    A file object keeps octets in a buffer and hands them to the file
    system when the buffer is full and when the file is closed.  While no
    call fails this cannot be told from writing at once, and the world
    holds under a path what has been handed to the file object.  When
    the file system refuses octets, the script gets [OSError] from the
    [write] that fills the buffer or from the end of the [with] block;
    it handles neither, and what the disk then holds of the file is a
    prefix of what was handed over, earlier calls included, of a length
    that the environment decides.  The failure is charged to the [write]
    at which, or last before which, it is reported. *)
Definition write (f : TextIOWrapper) (s : str) : M TextIOWrapper :=
  if forallb encodable s then
    fun w =>
      match syscall w with
      | (w', Returned _) =>
          (append (name f) (encode_chunk f s) w',
           Returned {| name := name f; encoding := encoding f; first := false |})
      | (w', Raised e) =>
          (lose (name f) (accepted env (syscalls w)) (encode_chunk f s) w', Raised e)
      end
  else raise UnicodeEncodeError.

(** Leaving the [with] block closes the file.  The octets are in the
    world already, and a flush that fails is charged to the last [write]
    before it, so nothing is left to do here. *)
Definition close (f : TextIOWrapper) : M unit := mret tt.

(** [with open(path, 'w', encoding=enc) as f: body]. *)
Definition with_open {A : Type} (path : str) (enc : Encoding)
    (body : TextIOWrapper -> M A) : M A :=
  f ← open_w path enc;
  finally (body f) (close f).

(** *** Paths and literals of the scripts *)

Definition WORKDIR : str := lit "c:\Users\Bill\Desktop\Vexium Verse".

Definition PDF_NAME : str :=
  lit "Vexium Verse " ++ [0x2014] ++ lit " Product Requirements Document (prd).pdf".

Definition PRD_FULL : str := lit "c:\Users\Bill\Desktop\Vexium Verse\Vex\prd_full.txt".

Definition MARKER : str := lit "---PAGE BREAK---".

Definition PAGE_BREAK : str := [LF; LF] ++ MARKER ++ [LF; LF].

Definition output_path : str :=
  lit "c:\Users\Bill\Desktop\Vexium Verse\vexium-verse\prd_extracted.txt".

Definition HEADER (n : N) : str := lit "=== PAGE " ++ format_int n ++ lit " ===".

Definition page_header (n : N) : str := [LF] ++ HEADER n ++ [LF].

Definition outdir : str := lit "c:\Users\Bill\Desktop\Vexium Verse\vexium-verse".

Definition page_file (n : N) : str := lit "prd_page_" ++ format_int n ++ lit ".md".

(** *** extract_prd.py *)

(** The body of the loop over the pages. *)
Definition extract_prd_page (page : PageObject) (f : TextIOWrapper) : M TextIOWrapper :=
  text ← extract_text page;
  write f (text ++ PAGE_BREAK).

Definition extract_prd : M unit :=
  _ ← os_chdir WORKDIR;
  reader ← PyPDF2_PdfReader PDF_NAME;
  _ ← with_open PRD_FULL utf_8 (fun f =>
        pgs ← reader_pages reader;
        for_each pgs extract_prd_page f);
  print (lit "Done").

(** *** extract_prd2.py *)

Definition extract_prd2_page (ip : N * PageObject) (f : TextIOWrapper) : M TextIOWrapper :=
  let '(i, page) := ip in
  text ← extract_text page;
  f ← write f (page_header (i + 1));
  write f text.

Definition extract_prd2 : M unit :=
  _ ← os_chdir WORKDIR;
  reader ← PyPDF2_PdfReader PDF_NAME;
  _ ← with_open output_path utf_8 (fun f =>
        pgs ← reader_pages reader;
        for_each (enumerate pgs) extract_prd2_page f);
  pgs ← reader_pages reader;
  print (lit "Extracted " ++ format_int (N.of_nat (length pgs))
         ++ lit " pages to " ++ output_path).

(** *** extract_prd_pages.py *)

Definition page_path (n : N) : str := os_path_join outdir (page_file n).

Definition extract_prd_pages_page (ip : N * PageObject) (_ : unit) : M unit :=
  let '(i, page) := ip in
  let path := page_path (i + 1) in
  _ ← with_open path utf_8_sig (fun f =>
        text ← extract_text page;
        write f text);
  size ← os_path_getsize path;
  print (lit "Page " ++ format_int (i + 1) ++ lit ": "
         ++ format_int size ++ lit " bytes").

Definition extract_prd_pages : M unit :=
  _ ← os_chdir WORKDIR;
  reader ← PyPDF2_PdfReader PDF_NAME;
  pgs ← reader_pages reader;
  _ ← for_each (enumerate pgs) extract_prd_pages_page tt;
  print (lit "Done").

End Runtime.

(** ** Reading the output back: occurrences of markers and headers *)

(** [s.startswith(p)]. *)
Fixpoint startswith (s p : str) {struct p} : bool :=
  match p with
  | [] => true
  | a :: p' =>
      match s with
      | [] => false
      | b :: s' => (b =? a) && startswith s' p'
      end
  end.

(** What follows the prefix [p] of [s], if [s] starts with [p]. *)
Fixpoint after_prefix (s p : str) {struct p} : option str :=
  match p with
  | [] => Some s
  | a :: p' =>
      match s with
      | [] => None
      | b :: s' => if b =? a then after_prefix s' p' else None
      end
  end.

Definition is_digit (c : N) : bool := (48 <=? c) && (c <=? 57).

(** The longest prefix of [s] made of characters that satisfy [P], and
    the rest of [s]. *)
Fixpoint span (P : N -> bool) (s : str) : str * str :=
  match s with
  | [] => ([], [])
  | c :: s' => if P c then let '(a, b) := span P s' in (c :: a, b) else ([], s)
  end.

(** The values a matcher finds at the positions of [s], from left to
    right; the position after the last character is one of them. *)
Fixpoint scan {A : Type} (m : str -> option A) (s : str) : list A :=
  match s with
  | [] => option_list (m [])
  | _ :: s' => option_list (m s) ++ scan m s'
  end.

(** The positions of [s] at which [p] starts. *)
Fixpoint occurrences (p s : str) : nat :=
  match s with
  | [] => if startswith [] p then 1 else 0
  | _ :: s' => (if startswith s p then 1 else 0) + occurrences p s'
  end.

(** A header [=== PAGE <digits> ===] at the start of [s]: its digits. *)
Definition header_at (s : str) : option str :=
  match after_prefix s (lit "=== PAGE ") with
  | None => None
  | Some r =>
      let '(ds, rest) := span is_digit r in
      match ds with
      | [] => None
      | _ :: _ => if startswith rest (lit " ===") then Some ds else None
      end
  end.

(** The page numbers of the headers of [s], as written, in the order in
    which they occur. *)
Definition headers (s : str) : list str := scan header_at s.

(** ** What the scripts are expected to write *)

Definition concatenated (texts : list str) : str :=
  concat (map (fun t => t ++ PAGE_BREAK) texts).

Definition headered (texts : list str) : str :=
  concat (map (fun '(i, t) => page_header (i + 1) ++ t) (enumerate texts)).

(** The text of [headered], with pages numbered from [i + 1]. *)
Definition headered_from (i : N) (texts : list str) : str :=
  concat (map (fun '(i, t) => page_header (i + 1) ++ t) (enumerate_from i texts)).

(** The page numbers of an [n]-page document. *)
Definition page_numbers (n : nat) : list N := map (fun i => N.of_nat i + 1) (seq 0 n).

(** ** Notions used in the statements *)

(** A matcher is line-local when a line feed, and what follows it, never
    takes part in a match. *)
Definition line_local {A : Type} (m : str -> option A) : Prop :=
  forall a b, m (a ++ LF :: b) = m a.

(** The matcher behind [occurrences]. *)
Definition literal (p : str) (s : str) : option unit :=
  if startswith s p then Some tt else None.

(** Text that ends where a line ends: nothing follows it, or a line feed. *)
Definition at_line_end (s : str) : Prop := s = [] \/ exists r, s = LF :: r.

(** The ASCII characters of markers and headers: no line feed, no
    carriage return. *)
Definition plain (c : N) : Prop := c < 128 /\ c <> LF /\ c <> CR.

(** An octet at which no marker or header starts. *)
Definition inert (b : N) : Prop := b = LF \/ 128 <= b.

(** The pages of a document all yield their text, and the texts are
    [texts]. *)
Definition texts_of (pgs : list PageObject) (texts : list str) : Prop :=
  map extract_text_result pgs = map Returned texts.

(** Every character of every text can be encoded. *)
Definition all_encodable (texts : list str) : Prop :=
  Forall (fun t => forallb encodable t = true) texts.

(** No file-system call fails among the [n] calls from call [a] on. *)
Definition quiet (env : Env) (a n : nat) : Prop :=
  forall k, (a <= k < a + n)%nat -> io_fault env k = false.

(** The world after one more file-system call. *)
Definition tick (w : World) : World :=
  {| fs := fs w; cwd := cwd w; stdout := stdout w; syscalls := S (syscalls w) |}.

(** The file object after a [write]. *)
Definition written (f : TextIOWrapper) : TextIOWrapper :=
  {| name := name f; encoding := encoding f; first := false |}.

(** The world in which the loop over the pages of the first two scripts
    starts: the working directory changed, the output file opened and
    empty. *)
Definition in_loop (path : str) (w : World) : World :=
  {| fs := <[path := []]> (fs w); cwd := WORKDIR; stdout := stdout w;
     syscalls := S (S (syscalls w)) |}.

(** The file object [open] returns. *)
Definition opened (path : str) (enc : Encoding) : TextIOWrapper :=
  {| name := path; encoding := enc; first := true |}.

(** What the third script is expected to leave in a page file. *)
Definition page_content (os : Platform) (t : str) : bytes :=
  BOM_UTF8 ++ encode_text os t.

(** The file system after the page files of [texts], numbered from
    [i + 1], have been written in order. *)
Definition page_files (env : Env) (i : N) (texts : list str)
    (m : gmap (list N) (list N)) : gmap (list N) (list N) :=
  foldl (fun m '(j, t) => <[page_path env (j + 1) := page_content (os_name env) t]> m)
        m (enumerate_from i texts).

(** The line the third script prints after a page. *)
Definition page_line (os : Platform) (j : N) (t : str) : str :=
  lit "Page " ++ format_int (j + 1) ++ lit ": "
  ++ format_int (N.of_nat (length (page_content os t))) ++ lit " bytes".

Definition page_lines (os : Platform) (i : N) (texts : list str) : list str :=
  map (fun '(j, t) => page_line os j t) (enumerate_from i texts).

(** The line the second script prints at its end. *)
Definition extracted_line (n : nat) : str :=
  lit "Extracted " ++ format_int (N.of_nat n) ++ lit " pages to " ++ output_path.

(** The paths of the page files of an [n]-page document. *)
Definition page_paths (env : Env) (n : nat) : list str :=
  map (page_path env) (page_numbers n).

(** Nothing fails in a run of a script that makes [n] file-system calls
    from the world [w] on: the document opens, its pages can be listed,
    every page yields a text, the texts are [texts] and can be encoded,
    and no call fails. *)
Definition nothing_fails (env : Env) (w : World) (n : nat) (texts : list str) : Prop :=
  quiet env (syscalls w) n /\
  exists reader, open_pdf env WORKDIR PDF_NAME = Returned reader /\
                 texts_of (pages reader) texts /\ all_encodable texts /\
                 pages_result reader = Returned (pages reader).

(** No file-system call ever fails. *)
Definition no_faults (env : Env) : Prop := forall k, io_fault env k = false.

(** In this environment a run over the document with the texts [texts]
    cannot fail, wherever it starts. *)
Definition always_succeeds (env : Env) (texts : list str) : Prop :=
  no_faults env /\
  exists reader, open_pdf env WORKDIR PDF_NAME = Returned reader /\
                 texts_of (pages reader) texts /\ all_encodable texts /\
                 pages_result reader = Returned (pages reader).

(** ** Sample documents *)

(** A page whose text is [t], a document whose pages have the texts
    [texts], and an environment in which such a document is found and
    no call fails. *)
Definition page_of (t : str) : PageObject := {| extract_text_result := Returned t |}.

Definition document (texts : list str) : PdfReader :=
  {| pages_result := Returned (map page_of texts) |}.

Definition sample_env (os : Platform) (texts : list str) : Env :=
  {| os_name := os; io_fault := fun _ => false; accepted := fun _ => 0%nat;
     open_pdf := fun _ _ => Returned (document texts) |}.

Definition empty_world : World :=
  {| fs := ∅; cwd := []; stdout := []; syscalls := 0 |}.

(** The example of the specification: three pages. *)
Definition example_texts : list str := [lit "Intro"; lit "Body"; lit "End"].

(** A document whose second page of three cannot be extracted, and an
    environment in which it is found and the file-system calls numbered
    in [faults] fail. *)
Definition broken_document : PdfReader :=
  {| pages_result :=
       Returned [page_of (lit "Intro"); {| extract_text_result := Raised PdfReadError |};
                 page_of (lit "End")] |}.

Definition faulty_env (os : Platform) (reader : PdfReader) (faults : list nat) : Env :=
  {| os_name := os; io_fault := fun k => bool_decide (k ∈ faults);
     accepted := fun _ => 0%nat;
     open_pdf := fun _ _ => Returned reader |}.

(** The world in which the first two scripts stop when page [k + 1]
    fails after [calls] file-system calls of the loop: the output file
    holds [content], nothing has been printed. *)
Definition stopped (path : str) (content : bytes) (calls : nat) (w : World) : World :=
  {| fs := <[path := content]> (fs w); cwd := WORKDIR; stdout := stdout w;
     syscalls := (syscalls w + 2 + calls)%nat |}.

(** A text with a lone surrogate, which UTF-8 cannot encode. *)
Definition surrogate_text : str := lit "ab" ++ [0xD800].

(** The world in which the third script stops when page [k + 1] fails
    after its file was opened: the files and lines of the [k] pages
    before are there, and the file of page [k + 1] is empty. *)
Definition stopped_pages (env : Env) (texts : list str) (w : World) : World :=
  {| fs := <[page_path env (N.of_nat (length texts) + 1) := []]>
             (page_files env 0 texts (fs w));
     cwd := WORKDIR;
     stdout := stdout w ++ page_lines (os_name env) 0 texts;
     syscalls := (syscalls w + 1 + 2 * length texts + 1)%nat |}.

(** The world [w] with another working directory. *)
Definition with_cwd (d : str) (w : World) : World :=
  {| fs := fs w; cwd := d; stdout := stdout w; syscalls := syscalls w |}.

(** The world after [os.chdir] to the directory of the scripts. *)
Definition in_workdir (w : World) : World :=
  {| fs := fs w; cwd := WORKDIR; stdout := stdout w; syscalls := S (syscalls w) |}.

(** A program that never changes the working directory. *)
Definition keeps_cwd {A : Type} (c : M A) : Prop :=
  forall w, cwd (fst (c w)) = cwd w.

(** An environment in which the PDF cannot be opened. *)
Definition no_pdf_env (os : Platform) (e : Exception) : Env :=
  {| os_name := os; io_fault := fun _ => false; accepted := fun _ => 0%nat;
     open_pdf := fun _ _ => Raised e |}.

(** The first position of [s] at which a matcher finds something, as
    [str.find] gives it for a literal. *)
Fixpoint find_first {A : Type} (m : str -> option A) (s : str) : option nat :=
  match s with
  | [] => match m [] with Some _ => Some 0%nat | None => None end
  | _ :: s' =>
      match m s with
      | Some _ => Some 0%nat
      | None => S <$> find_first m s'
      end
  end.

(** Two environments that differ at most in which file-system calls
    fail: the platform is the same, and so is what the PDF library makes
    of the document. *)
Definition same_document (env1 env2 : Env) : Prop :=
  os_name env1 = os_name env2 /\
  open_pdf env1 WORKDIR PDF_NAME = open_pdf env2 WORKDIR PDF_NAME.

(** ** How a run ends *)

(** An environment in which the document [reader] is found, the calls
    numbered in [faults] fail, and a write that fails leaves [kept]
    octets of its file on the disk. *)
Definition lossy_env (os : Platform) (reader : PdfReader) (faults : list nat)
    (kept : nat) : Env :=
  {| os_name := os; io_fault := fun k => bool_decide (k ∈ faults);
     accepted := fun _ => kept;
     open_pdf := fun _ _ => Returned reader |}.

(** A document whose pages cannot be listed. *)
Definition locked_document : PdfReader := {| pages_result := Raised PdfReadError |}.

(** The loop gets past a page for which it makes [c] file-system calls,
    the first of them call [n]: the page yields a text that can be
    encoded, and none of the calls fails. *)
Definition page_passes (env : Env) (c n : nat) (page : PageObject) : Prop :=
  exists t, extract_text_result page = Returned t /\ forallb encodable t = true /\
            quiet env n c.

(** How a page makes the first script fail in the world [w0], in which
    the pages before it have been written: the world that is left and
    the exception.  The text cannot be extracted, or it cannot be
    encoded, and the file is as it was; or the write fails, and the file
    is cut to what the disk holds. *)
Inductive extract_prd_page_fails (env : Env) (page : PageObject) (w0 : World)
  : World -> Exception -> Prop :=
  | extract_prd_no_text e :
      extract_text_result page = Raised e ->
      extract_prd_page_fails env page w0 w0 e
  | extract_prd_no_encoding t :
      extract_text_result page = Returned t ->
      forallb encodable t = false ->
      extract_prd_page_fails env page w0 w0 UnicodeEncodeError
  | extract_prd_no_write t :
      extract_text_result page = Returned t ->
      forallb encodable t = true ->
      io_fault env (syscalls w0) = true ->
      extract_prd_page_fails env page w0
        (lose PRD_FULL (accepted env (syscalls w0))
           (encode_text (os_name env) (t ++ PAGE_BREAK)) (tick w0))
        OSError.

(** The ways in which a run of the first script from the world [w]
    ends, each with the world it leaves: the working directory cannot be
    changed; the PDF cannot be opened; the output file cannot be opened;
    the pages cannot be listed, after the output file was cut to length
    zero; a page fails after the pages before it were written; or
    nothing fails. *)
Inductive extract_prd_ends (env : Env) (w : World) : World * Outcome unit -> Prop :=
  | extract_prd_ends_chdir :
      io_fault env (syscalls w) = true ->
      extract_prd_ends env w (tick w, Raised OSError)
  | extract_prd_ends_pdf e :
      io_fault env (syscalls w) = false ->
      open_pdf env WORKDIR PDF_NAME = Raised e ->
      extract_prd_ends env w (in_workdir w, Raised e)
  | extract_prd_ends_open reader :
      io_fault env (syscalls w) = false ->
      open_pdf env WORKDIR PDF_NAME = Returned reader ->
      io_fault env (S (syscalls w)) = true ->
      extract_prd_ends env w (tick (in_workdir w), Raised OSError)
  | extract_prd_ends_listing reader e :
      quiet env (syscalls w) 2 ->
      open_pdf env WORKDIR PDF_NAME = Returned reader ->
      pages_result reader = Raised e ->
      extract_prd_ends env w (stopped PRD_FULL [] 0 w, Raised e)
  | extract_prd_ends_page reader pre page post texts w' e :
      quiet env (syscalls w) (2 + length texts) ->
      open_pdf env WORKDIR PDF_NAME = Returned reader ->
      pages_result reader = Returned (pre ++ page :: post) ->
      texts_of pre texts -> all_encodable texts ->
      extract_prd_page_fails env page
        (stopped PRD_FULL (encode_text (os_name env) (concatenated texts))
           (length texts) w) w' e ->
      extract_prd_ends env w (w', Raised e)
  | extract_prd_ends_done texts :
      nothing_fails env w (2 + length texts) texts ->
      extract_prd_ends env w
        ({| fs := <[PRD_FULL := encode_text (os_name env) (concatenated texts)]> (fs w);
            cwd := WORKDIR; stdout := stdout w ++ [lit "Done"];
            syscalls := (syscalls w + 2 + length texts)%nat |},
         Returned tt).

(** How page [i + 1] makes the second script fail in the world [w0]:
    the text cannot be extracted, and the file is as it was; the write
    of the header fails, and the file is cut to what the disk holds; the
    text cannot be encoded, after the header was written; or the write
    of the text fails, after the header was written, and the file is cut
    to what the disk holds. *)
Inductive extract_prd2_page_fails (env : Env) (i : N) (page : PageObject) (w0 : World)
  : World -> Exception -> Prop :=
  | extract_prd2_no_text e :
      extract_text_result page = Raised e ->
      extract_prd2_page_fails env i page w0 w0 e
  | extract_prd2_no_header t :
      extract_text_result page = Returned t ->
      io_fault env (syscalls w0) = true ->
      extract_prd2_page_fails env i page w0
        (lose output_path (accepted env (syscalls w0))
           (encode_text (os_name env) (page_header (i + 1))) (tick w0))
        OSError
  | extract_prd2_no_encoding t :
      extract_text_result page = Returned t ->
      io_fault env (syscalls w0) = false ->
      forallb encodable t = false ->
      extract_prd2_page_fails env i page w0
        (append output_path (encode_text (os_name env) (page_header (i + 1))) (tick w0))
        UnicodeEncodeError
  | extract_prd2_no_write t :
      extract_text_result page = Returned t ->
      io_fault env (syscalls w0) = false ->
      forallb encodable t = true ->
      io_fault env (S (syscalls w0)) = true ->
      extract_prd2_page_fails env i page w0
        (lose output_path (accepted env (S (syscalls w0))) (encode_text (os_name env) t)
           (tick (append output_path (encode_text (os_name env) (page_header (i + 1)))
                    (tick w0))))
        OSError.

(** The ways in which a run of the second script ends. *)
Inductive extract_prd2_ends (env : Env) (w : World) : World * Outcome unit -> Prop :=
  | extract_prd2_ends_chdir :
      io_fault env (syscalls w) = true ->
      extract_prd2_ends env w (tick w, Raised OSError)
  | extract_prd2_ends_pdf e :
      io_fault env (syscalls w) = false ->
      open_pdf env WORKDIR PDF_NAME = Raised e ->
      extract_prd2_ends env w (in_workdir w, Raised e)
  | extract_prd2_ends_open reader :
      io_fault env (syscalls w) = false ->
      open_pdf env WORKDIR PDF_NAME = Returned reader ->
      io_fault env (S (syscalls w)) = true ->
      extract_prd2_ends env w (tick (in_workdir w), Raised OSError)
  | extract_prd2_ends_listing reader e :
      quiet env (syscalls w) 2 ->
      open_pdf env WORKDIR PDF_NAME = Returned reader ->
      pages_result reader = Raised e ->
      extract_prd2_ends env w (stopped output_path [] 0 w, Raised e)
  | extract_prd2_ends_page reader pre page post texts w' e :
      quiet env (syscalls w) (2 + 2 * length texts) ->
      open_pdf env WORKDIR PDF_NAME = Returned reader ->
      pages_result reader = Returned (pre ++ page :: post) ->
      texts_of pre texts -> all_encodable texts ->
      extract_prd2_page_fails env (N.of_nat (length texts)) page
        (stopped output_path (encode_text (os_name env) (headered texts))
           (2 * length texts) w) w' e ->
      extract_prd2_ends env w (w', Raised e)
  | extract_prd2_ends_done texts :
      nothing_fails env w (2 + 2 * length texts) texts ->
      extract_prd2_ends env w
        ({| fs := <[output_path := encode_text (os_name env) (headered texts)]> (fs w);
            cwd := WORKDIR; stdout := stdout w ++ [extracted_line (length texts)];
            syscalls := (syscalls w + 2 + 2 * length texts)%nat |},
         Returned tt).

(** The world of the third script after the pages with the texts
    [texts]: their files are written and their lines printed. *)
Definition pages_done (env : Env) (texts : list str) (w : World) : World :=
  {| fs := page_files env 0 texts (fs w); cwd := WORKDIR;
     stdout := stdout w ++ page_lines (os_name env) 0 texts;
     syscalls := (syscalls w + 1 + 2 * length texts)%nat |}.

(** How page [i + 1] makes the third script fail in the world [w0]: its
    file cannot be opened, and no file is touched; the text cannot be
    extracted or cannot be encoded, and the file of the page is left
    opened and empty; or the write fails, and the file of the page is
    cut to what the disk holds. *)
Inductive extract_prd_pages_page_fails (env : Env) (i : N) (page : PageObject)
    (w0 : World) : World -> Exception -> Prop :=
  | extract_prd_pages_no_file :
      io_fault env (syscalls w0) = true ->
      extract_prd_pages_page_fails env i page w0 (tick w0) OSError
  | extract_prd_pages_no_text e :
      io_fault env (syscalls w0) = false ->
      extract_text_result page = Raised e ->
      extract_prd_pages_page_fails env i page w0
        (set_fs (<[page_path env (i + 1) := []]> (fs w0)) (tick w0)) e
  | extract_prd_pages_no_encoding t :
      io_fault env (syscalls w0) = false ->
      extract_text_result page = Returned t ->
      forallb encodable t = false ->
      extract_prd_pages_page_fails env i page w0
        (set_fs (<[page_path env (i + 1) := []]> (fs w0)) (tick w0)) UnicodeEncodeError
  | extract_prd_pages_no_write t :
      io_fault env (syscalls w0) = false ->
      extract_text_result page = Returned t ->
      forallb encodable t = true ->
      io_fault env (S (syscalls w0)) = true ->
      extract_prd_pages_page_fails env i page w0
        (lose (page_path env (i + 1)) (accepted env (S (syscalls w0)))
           (page_content (os_name env) t)
           (tick (set_fs (<[page_path env (i + 1) := []]> (fs w0)) (tick w0))))
        OSError.

(** The ways in which a run of the third script ends.  The script lists
    the pages before it opens a file. *)
Inductive extract_prd_pages_ends (env : Env) (w : World) : World * Outcome unit -> Prop :=
  | extract_prd_pages_ends_chdir :
      io_fault env (syscalls w) = true ->
      extract_prd_pages_ends env w (tick w, Raised OSError)
  | extract_prd_pages_ends_pdf e :
      io_fault env (syscalls w) = false ->
      open_pdf env WORKDIR PDF_NAME = Raised e ->
      extract_prd_pages_ends env w (in_workdir w, Raised e)
  | extract_prd_pages_ends_listing reader e :
      io_fault env (syscalls w) = false ->
      open_pdf env WORKDIR PDF_NAME = Returned reader ->
      pages_result reader = Raised e ->
      extract_prd_pages_ends env w (in_workdir w, Raised e)
  | extract_prd_pages_ends_page reader pre page post texts w' e :
      quiet env (syscalls w) (1 + 2 * length texts) ->
      open_pdf env WORKDIR PDF_NAME = Returned reader ->
      pages_result reader = Returned (pre ++ page :: post) ->
      texts_of pre texts -> all_encodable texts ->
      extract_prd_pages_page_fails env (N.of_nat (length texts)) page
        (pages_done env texts w) w' e ->
      extract_prd_pages_ends env w (w', Raised e)
  | extract_prd_pages_ends_done texts :
      nothing_fails env w (1 + 2 * length texts) texts ->
      extract_prd_pages_ends env w
        ({| fs := page_files env 0 texts (fs w); cwd := WORKDIR;
            stdout := stdout w ++ page_lines (os_name env) 0 texts ++ [lit "Done"];
            syscalls := (syscalls w + 1 + 2 * length texts)%nat |},
         Returned tt).

(** A path that [nt] finds without looking at the working directory: it
    names a drive, and what follows the drive starts at the root. *)
Definition fully_qualified (p : str) : bool :=
  match splitdrive p with
  | (_ :: _, c :: _) => (c =? 47) || (c =? 92)
  | _ => false
  end.

(** * Properties *)

#[local] Arguments N.eqb : simpl never.
#[local] Arguments N.ltb : simpl never.
#[local] Arguments N.leb : simpl never.

(** A closed decidable statement, settled by evaluation. *)
Ltac decide_closed := apply (bool_decide_unpack _); vm_compute; exact I.

(** ** The codec on sample characters *)

(** The small letter e with acute, the em dash of the name of the PDF,
    and a character outside the basic plane. *)
Example utf_8_encode_char_samples :
  utf_8_encode_char 0xE9 = [0xC3; 0xA9] /\
  utf_8_encode_char 0x2014 = [0xE2; 0x80; 0x94] /\
  utf_8_encode_char 0x1F600 = [0xF0; 0x9F; 0x98; 0x80].
Proof. repeat split; reflexivity. Qed.

Example encode_text_line_ends :
  encode_text posix (lit "a" ++ [LF] ++ lit "b") = [97; 10; 98] /\
  encode_text nt (lit "a" ++ [LF] ++ lit "b") = [97; 13; 10; 98].
Proof. split; reflexivity. Qed.

(** ** Matching within a line *)

Lemma occurrences_scan p s : occurrences p s = length (scan (literal p) s).
Proof.
  induction s as [|c s IH]; cbn [occurrences scan].
  - unfold literal. destruct (startswith [] p); reflexivity.
  - rewrite length_app, IH. unfold literal.
    destruct (startswith (c :: s) p); reflexivity.
Qed.

Lemma startswith_app_LF p : LF ∉ p -> forall a b,
  startswith (a ++ LF :: b) p = startswith a p.
Proof.
  induction p as [|x p IH]; intros Hp a b; [reflexivity|].
  apply not_elem_of_cons in Hp as [Hx Hp].
  destruct a as [|c a]; simpl.
  - destruct (N.eqb_spec LF x); [congruence | reflexivity].
  - rewrite IH by assumption. reflexivity.
Qed.

Lemma after_prefix_app_LF p : LF ∉ p -> forall a b,
  after_prefix (a ++ LF :: b) p = (fun r => r ++ LF :: b) <$> after_prefix a p.
Proof.
  induction p as [|x p IH]; intros Hp a b; [reflexivity|].
  apply not_elem_of_cons in Hp as [Hx Hp].
  destruct a as [|c a]; simpl.
  - destruct (N.eqb_spec LF x); [congruence | reflexivity].
  - destruct (c =? x); [apply IH; assumption | reflexivity].
Qed.

Lemma span_app_LF P : P LF = false -> forall a b,
  span P (a ++ LF :: b) = (fst (span P a), snd (span P a) ++ LF :: b).
Proof.
  intros HP a b. induction a as [|c a IH]; simpl.
  - rewrite HP. reflexivity.
  - destruct (P c); [|reflexivity].
    rewrite IH. destruct (span P a). reflexivity.
Qed.

Lemma literal_line_local p : LF ∉ p -> line_local (literal p).
Proof. intros Hp a b. unfold literal. rewrite startswith_app_LF by assumption. reflexivity. Qed.

Lemma header_at_line_local : line_local header_at.
Proof.
  intros a b. unfold header_at.
  rewrite after_prefix_app_LF by decide_closed.
  destruct (after_prefix a _) as [r|]; [cbn [fmap option_fmap option_map]|reflexivity].
  rewrite span_app_LF by reflexivity.
  destruct (span is_digit r) as [ds rest]; cbn [fst snd].
  destruct ds; [reflexivity|].
  rewrite startswith_app_LF by decide_closed. reflexivity.
Qed.

Lemma scan_app_LF {A} (m : str -> option A) a b :
  line_local m -> scan m (a ++ LF :: b) = scan m a ++ scan m b.
Proof.
  intros Hm. induction a as [|c a IH]; simpl.
  - pose proof (Hm [] b) as E. simpl in E. rewrite E. reflexivity.
  - pose proof (Hm (c :: a) b) as E. simpl in E.
    rewrite E, IH, app_assoc. reflexivity.
Qed.

Lemma scan_LF {A} (m : str -> option A) b :
  line_local m -> m [] = None -> scan m (LF :: b) = scan m b.
Proof.
  intros Hm Hnil. change (LF :: b) with ([] ++ LF :: b).
  rewrite scan_app_LF by assumption. simpl. rewrite Hnil. reflexivity.
Qed.

Lemma scan_app_line_end {A} (m : str -> option A) a b :
  line_local m -> m [] = None -> at_line_end b ->
  scan m (a ++ b) = scan m a ++ scan m b.
Proof.
  intros Hm Hnil [-> | [r ->]].
  - simpl. rewrite Hnil, !app_nil_r. reflexivity.
  - rewrite scan_app_LF, scan_LF by assumption. reflexivity.
Qed.

(** Closed comparisons of code points are replaced by their values. *)
Ltac eval_cmp :=
  repeat match goal with
  | |- context [N.eqb ?a ?b] =>
      let v := eval vm_compute in (N.eqb a b) in
      match v with
      | true => change (N.eqb a b) with true
      | false => change (N.eqb a b) with false
      end
  end.

(** ** Decimal numbers *)

Lemma digits_is_digit d : Forall (fun c => is_digit c = true) (digits d).
Proof. induction d; simpl; constructor; (reflexivity || assumption). Qed.

Lemma digits_inj d d' : digits d = digits d' -> d = d'.
Proof.
  revert d'. induction d; destruct d'; simpl; intros H;
    try discriminate; try reflexivity;
    injection H as H; f_equal; auto.
Qed.

Lemma format_int_inj : Inj (=) (=) format_int.
Proof.
  intros n n' H. apply DecimalN.Unsigned.to_uint_inj, digits_inj, H.
Qed.

Lemma format_int_nonempty n : format_int n <> [].
Proof.
  unfold format_int. destruct n as [|p]; [discriminate|].
  simpl. pose proof (DecimalPos.Unsigned.to_uint_nonnil p) as Hp.
  destruct (Pos.to_uint p); [congruence | discriminate ..].
Qed.

Lemma format_int_is_digit n : Forall (fun c => is_digit c = true) (format_int n).
Proof. apply digits_is_digit. Qed.

(** ** Markers and headers in the expected text *)

Lemma after_prefix_app p r : after_prefix (p ++ r) p = Some r.
Proof. induction p; simpl; [reflexivity|]. rewrite N.eqb_refl. assumption. Qed.

Lemma span_digits ds r :
  Forall (fun c => is_digit c = true) ds ->
  match r with [] => True | c :: _ => is_digit c = false end ->
  span is_digit (ds ++ r) = (ds, r).
Proof.
  intros Hds Hr. induction Hds as [|c ds Hc _ IH]; simpl.
  - destruct r; simpl; [reflexivity|]. rewrite Hr. reflexivity.
  - rewrite Hc, IH. reflexivity.
Qed.

Lemma header_at_HEADER n r :
  header_at (HEADER n ++ r) = Some (format_int n).
Proof.
  unfold header_at, HEADER. rewrite <- !app_assoc, after_prefix_app.
  rewrite span_digits; [|apply format_int_is_digit|reflexivity].
  pose proof (format_int_nonempty n). destruct (format_int n); [congruence|].
  reflexivity.
Qed.

(** No header starts at a character other than the equals sign, and
    none within the first two of its three equals signs. *)
Lemma header_at_other c s : c <> 61 -> header_at (c :: s) = None.
Proof.
  intros Hc. unfold header_at. change (lit "=== PAGE ") with [61; 61; 61; 32; 80; 65; 71; 69; 32].
  simpl. destruct (N.eqb_spec c 61); [congruence | reflexivity].
Qed.

Lemma is_digit_not_equals c : is_digit c = true -> c <> 61.
Proof. unfold is_digit. intros H ->. discriminate. Qed.

Lemma headers_digits ds :
  Forall (fun c => is_digit c = true) ds -> headers (ds ++ lit " ===") = [].
Proof.
  induction 1 as [|c ds Hc _ IH]; [reflexivity|].
  unfold headers in *. simpl. rewrite IH.
  rewrite header_at_other by (apply is_digit_not_equals; assumption). reflexivity.
Qed.

Lemma headers_HEADER n : headers (HEADER n) = [format_int n].
Proof.
  unfold headers.
  pose proof (header_at_HEADER n []) as H0. rewrite app_nil_r in H0.
  pose proof (headers_digits _ (format_int_is_digit n)) as Hd. unfold headers in Hd.
  unfold HEADER in *. change (lit "=== PAGE ") with [61; 61; 61; 32; 80; 65; 71; 69; 32] in *.
  cbn [app scan]. cbn [app] in H0. rewrite H0, Hd.
  unfold header_at. change (lit "=== PAGE ") with [61; 61; 61; 32; 80; 65; 71; 69; 32].
  cbn [after_prefix]. eval_cmp. reflexivity.
Qed.

Lemma header_at_nil : header_at [] = None.
Proof. reflexivity. Qed.

Lemma page_header_app n r : page_header n ++ r = LF :: HEADER n ++ LF :: r.
Proof. unfold page_header. simpl. rewrite <- app_assoc. reflexivity. Qed.

Lemma enumerate_from_line_end i (texts : list str) :
  at_line_end (concat (map (fun '(i, t) => page_header (i + 1) ++ t) (enumerate_from i texts))).
Proof. destruct texts; [left | right]; simpl; eauto. Qed.

(** The headers of the expected text of the second script: before the
    headers of each page's own text comes the number of that page. *)
Lemma headers_headered_from i texts :
  headers (concat (map (fun '(i, t) => page_header (i + 1) ++ t) (enumerate_from i texts)))
  = concat (map (fun '(i, t) => format_int (i + 1) :: headers t) (enumerate_from i texts)).
Proof.
  revert i. induction texts as [|t ts IH]; intros i; [reflexivity|].
  cbn [enumerate_from map concat]. rewrite <- IH.
  rewrite <- app_assoc, page_header_app. unfold headers.
  rewrite scan_LF, scan_app_LF by first [apply header_at_line_local | reflexivity].
  rewrite scan_app_line_end;
    [|apply header_at_line_local|reflexivity|apply enumerate_from_line_end].
  fold (headers (HEADER (i + 1))). rewrite headers_HEADER. reflexivity.
Qed.

Lemma headers_headered texts :
  headers (headered texts)
  = concat (map (fun '(i, t) => format_int (i + 1) :: headers t) (enumerate texts)).
Proof. apply headers_headered_from. Qed.

(** The occurrences of the marker in the expected text of the first
    script: one after every page, and those inside the page texts. *)
Lemma occurrences_concatenated texts :
  occurrences MARKER (concatenated texts)
  = (length texts + sum_list (map (occurrences MARKER) texts))%nat.
Proof.
  induction texts as [|t ts IH]; [reflexivity|].
  unfold concatenated in *. cbn [map concat sum_list length].
  rewrite occurrences_scan in *. unfold PAGE_BREAK at 1.
  assert (Hm : line_local (literal MARKER)) by (apply literal_line_local; decide_closed).
  rewrite <- !app_assoc. cbn [app].
  repeat first [ rewrite scan_app_LF by assumption
               | rewrite scan_LF by first [assumption | reflexivity]
               | rewrite length_app ].
  rewrite IH, <- !occurrences_scan.
  change (occurrences MARKER MARKER) with 1%nat. unfold id. lia.
Qed.

(** ** Markers and headers in the encoded file *)

Ltac plain_literal :=
  match goal with
  | |- Forall plain ?l =>
      let v := eval vm_compute in l in
      change (Forall plain v);
      repeat (apply List.Forall_cons; [split; [reflexivity | split; discriminate]|]);
      apply List.Forall_nil
  end.

Lemma testbit7_high a : N.testbit a 7 = true -> 128 <= a.
Proof.
  intros H. destruct (N.lt_ge_cases a 128) as [Hlt|]; [exfalso|assumption].
  rewrite N.testbit_true in H. change (2 ^ 7) with 128 in H.
  rewrite N.div_small in H by assumption. discriminate.
Qed.

Lemma lor_high k x : N.testbit k 7 = true -> 128 <= N.lor k x.
Proof. intros H. apply testbit7_high. rewrite N.lor_spec, H. reflexivity. Qed.

Lemma utf_8_encode_char_spec c :
  (c < 128 /\ utf_8_encode_char c = [c]) \/
  (128 <= c /\ exists b bs, utf_8_encode_char c = b :: bs /\ 128 <= b /\ Forall inert bs).
Proof.
  unfold utf_8_encode_char.
  destruct (N.ltb_spec c 0x80); [left; split; [assumption | reflexivity]|].
  right. split; [assumption|].
  destruct (c <? 0x800); [|destruct (c <? 0x10000)];
    eexists _, _; (split; [reflexivity|]); (split; [apply lor_high; reflexivity|]);
    repeat (apply List.Forall_cons; [right; apply lor_high; reflexivity|]); apply List.Forall_nil.
Qed.

(** The octets of one character: an ASCII character other than the line
    feed is its own octet, and nothing else yields an ASCII octet other
    than the two of a line end. *)
Lemma encode_char_spec os c :
  exists b bs, encode_char os c = b :: bs /\ Forall inert bs /\
    ((c = LF /\ (b = LF \/ b = CR)) \/
     (c <> LF /\ c < 128 /\ b = c /\ bs = []) \/
     (128 <= c /\ 128 <= b)).
Proof.
  unfold encode_char. destruct (N.eqb_spec c LF) as [->|Hc].
  - destruct os; simpl; eexists _, _; (split; [reflexivity|]); split;
      try (left; auto);
      repeat (apply List.Forall_cons; [left; reflexivity|]); apply List.Forall_nil.
  - destruct (utf_8_encode_char_spec c) as [[Hlt ->] | [Hge (b & bs & -> & Hb & Hbs)]].
    + exists c, []. split; [reflexivity|]. split; [apply List.Forall_nil|].
      right; left. repeat split; assumption.
    + exists b, bs. split; [reflexivity|]. split; [assumption|].
      right; right. split; assumption.
Qed.

Lemma encode_text_cons os c t :
  encode_text os (c :: t) = encode_char os c ++ encode_text os t.
Proof. reflexivity. Qed.

Lemma encode_text_app os a b :
  encode_text os (a ++ b) = encode_text os a ++ encode_text os b.
Proof. apply flat_map_app. Qed.

Lemma after_prefix_encode os p : Forall plain p -> forall t,
  after_prefix (encode_text os t) p = encode_text os <$> after_prefix t p.
Proof.
  induction 1 as [|x p (Hx & HxLF & HxCR) _ IH]; intros t; [reflexivity|].
  destruct t as [|c t]; [reflexivity|].
  rewrite encode_text_cons.
  destruct (encode_char_spec os c) as (b & bs & -> & Hbs & Hcase).
  unfold LF, CR in *. simpl.
  destruct Hcase as [[-> Hb] | [(Hc & Hlt & -> & ->) | [Hc Hb]]].
  - destruct (N.eqb_spec b x); [lia|]. destruct (N.eqb_spec 10 x); [lia | reflexivity].
  - simpl. destruct (c =? x); [apply IH | reflexivity].
  - destruct (N.eqb_spec b x); [lia|]. destruct (N.eqb_spec c x); [lia | reflexivity].
Qed.

Lemma startswith_after_prefix s p : startswith s p = bool_decide (is_Some (after_prefix s p)).
Proof.
  revert s. induction p as [|x p IH]; intros s; simpl.
  - reflexivity.
  - destruct s as [|c s]; [reflexivity|].
    destruct (c =? x); simpl; [apply IH | reflexivity].
Qed.

Lemma startswith_encode os p t : Forall plain p ->
  startswith (encode_text os t) p = startswith t p.
Proof.
  intros Hp. rewrite !startswith_after_prefix, after_prefix_encode by assumption.
  apply bool_decide_ext. rewrite fmap_is_Some. reflexivity.
Qed.

Lemma is_digit_high c : 128 <= c -> is_digit c = false.
Proof.
  intros H. unfold is_digit. destruct (N.leb_spec c 57); [lia|].
  apply andb_false_r.
Qed.

Lemma span_digit_encode os t :
  span is_digit (encode_text os t)
  = (fst (span is_digit t), encode_text os (snd (span is_digit t))).
Proof.
  induction t as [|c t IH]; [reflexivity|].
  rewrite encode_text_cons. cbn [span].
  destruct (encode_char_spec os c) as (b & bs & E & Hbs & Hcase).
  rewrite E. unfold LF, CR in *.
  destruct (is_digit c) eqn:Hdc.
  - destruct Hcase as [[-> Hb] | [(Hc & Hlt & -> & ->) | [Hc Hb]]].
    + discriminate Hdc.
    + cbn [app span]. rewrite Hdc, IH. destruct (span is_digit t). reflexivity.
    + rewrite is_digit_high in Hdc by assumption. discriminate.
  - cbn [fst snd app span]. rewrite encode_text_cons, E.
    replace (is_digit b) with false; [reflexivity|].
    destruct Hcase as [[-> Hb] | [(Hc & Hlt & -> & ->) | [Hc Hb]]].
    + destruct Hb as [-> | ->]; reflexivity.
    + congruence.
    + symmetry. apply is_digit_high. assumption.
Qed.

Lemma header_at_encode os t : header_at (encode_text os t) = header_at t.
Proof.
  unfold header_at.
  rewrite after_prefix_encode by plain_literal.
  destruct (after_prefix t _) as [r|]; [|reflexivity].
  cbn [fmap option_fmap option_map]. rewrite span_digit_encode.
  destruct (span is_digit r) as [ds rest]. cbn [fst snd].
  destruct ds; [reflexivity|].
  rewrite startswith_encode by plain_literal.
  reflexivity.
Qed.

Lemma scan_inert {A} (m : str -> option A) bs s :
  (forall b r, inert b -> m (b :: r) = None) ->
  Forall inert bs -> scan m (bs ++ s) = scan m s.
Proof.
  intros Hm. induction 1 as [|b bs Hb _ IH]; [reflexivity|].
  simpl. rewrite Hm by assumption. assumption.
Qed.

(** A matcher that sees the encoded text as it sees the text, and that
    finds nothing at an inert octet, finds in the file what it finds
    in the text. *)
Lemma scan_encode {A} (m : str -> option A) os t :
  (forall t, m (encode_text os t) = m t) ->
  (forall b r, inert b -> m (b :: r) = None) ->
  scan m (encode_text os t) = scan m t.
Proof.
  intros Henc Hm. induction t as [|c t IH]; [reflexivity|].
  pose proof (Henc (c :: t)) as H0. rewrite encode_text_cons in *.
  destruct (encode_char_spec os c) as (b & bs & E & Hbs & _).
  rewrite E in *. simpl in *. rewrite H0, scan_inert, IH by assumption.
  reflexivity.
Qed.

Lemma MARKER_plain : Forall plain MARKER.
Proof. plain_literal. Qed.

Lemma occurrences_encode os t :
  occurrences MARKER (encode_text os t) = occurrences MARKER t.
Proof.
  rewrite !occurrences_scan. f_equal. apply scan_encode.
  - intros s. unfold literal. rewrite startswith_encode by apply MARKER_plain. reflexivity.
  - intros b r Hb. unfold literal, MARKER.
    change (lit "---PAGE BREAK---") with (45 :: lit "--PAGE BREAK---").
    simpl. destruct (N.eqb_spec b 45) as [->|]; [|reflexivity].
    destruct Hb as [Hb | Hb]; [discriminate Hb | lia].
Qed.

Lemma headers_encode os t : headers (encode_text os t) = headers t.
Proof.
  apply scan_encode.
  - apply header_at_encode.
  - intros b r Hb. apply header_at_other. intros ->.
    destruct Hb as [Hb | Hb]; [discriminate Hb | lia].
Qed.

(** ** Running programs *)

Lemma run_bind {A B} (c : M A) (k : A -> M B) w :
  (c ≫= k) w = match c w with
               | (w', Returned a) => k a w'
               | (w', Raised e) => (w', Raised e)
               end.
Proof. reflexivity. Qed.

Lemma run_ret {A} (a : A) w : (mret a : M A) w = (w, Returned a).
Proof. reflexivity. Qed.

Lemma World_eq w1 w2 :
  fs w1 = fs w2 -> cwd w1 = cwd w2 -> stdout w1 = stdout w2 ->
  syscalls w1 = syscalls w2 -> w1 = w2.
Proof. destruct w1, w2; simpl; intros; subst; reflexivity. Qed.

Lemma for_each_app {X S} (xs ys : list X) (body : X -> S -> M S) s w :
  for_each (xs ++ ys) body s w =
  match for_each xs body s w with
  | (w', Returned s') => for_each ys body s' w'
  | (w', Raised e) => (w', Raised e)
  end.
Proof.
  revert s w. induction xs as [|x xs IH]; intros s w; [reflexivity|].
  simpl. rewrite !run_bind. destruct (body x s w) as [w1 [s1|e]]; [apply IH | reflexivity].
Qed.

(** A loop stops at the first iteration that raises: the iterations
    after it have no part in the result. *)
Lemma for_each_raise {X S} (pre post : list X) x (body : X -> S -> M S) s w w1 s1 w2 e :
  for_each pre body s w = (w1, Returned s1) ->
  body x s1 w1 = (w2, Raised e) ->
  for_each (pre ++ x :: post) body s w = (w2, Raised e).
Proof.
  intros Hpre Hx. rewrite for_each_app, Hpre. simpl. rewrite run_bind, Hx. reflexivity.
Qed.

Lemma enumerate_from_app {X} i (xs ys : list X) :
  enumerate_from i (xs ++ ys)
  = enumerate_from i xs ++ enumerate_from (i + N.of_nat (length xs)) ys.
Proof.
  revert i. induction xs as [|x xs IH]; intros i; simpl.
  - rewrite N.add_0_r. reflexivity.
  - rewrite IH. do 3 f_equal. lia.
Qed.

Lemma enumerate_from_length {X} i (xs : list X) : length (enumerate_from i xs) = length xs.
Proof. revert i. induction xs; intros i; simpl; [reflexivity | f_equal; auto]. Qed.

Lemma quiet_head env a n : quiet env a (S n) -> io_fault env a = false.
Proof. intros H. apply H. lia. Qed.

Lemma quiet_tail env a n : quiet env a (S n) -> quiet env (S a) n.
Proof. intros H k Hk. apply H. lia. Qed.

Lemma quiet_le env a n m : (m <= n)%nat -> quiet env a n -> quiet env a m.
Proof. intros Hm H k Hk. apply H. lia. Qed.

Lemma quiet_shift env a n m : (m <= n)%nat -> quiet env a n -> quiet env (a + m) (n - m).
Proof. intros Hm H k Hk. apply H. lia. Qed.

Lemma texts_of_length pgs texts : texts_of pgs texts -> length pgs = length texts.
Proof. intros H. apply (f_equal length) in H. rewrite !length_map in H. exact H. Qed.

Lemma texts_of_cons_inv p pgs texts :
  texts_of (p :: pgs) texts ->
  exists t ts, texts = t :: ts /\ extract_text_result p = Returned t /\ texts_of pgs ts.
Proof.
  unfold texts_of. destruct texts as [|t ts]; simpl; intros H; [discriminate|].
  injection H as H1 H2. eauto.
Qed.

Section Steps.

Variable env : Env.

Lemma syscall_ok w :
  io_fault env (syscalls w) = false -> syscall env w = (tick w, Returned tt).
Proof. intros H. unfold syscall. rewrite H. reflexivity. Qed.

Lemma syscall_fault w :
  io_fault env (syscalls w) = true -> syscall env w = (tick w, Raised OSError).
Proof. intros H. unfold syscall. rewrite H. reflexivity. Qed.

Lemma write_ok f s w :
  forallb encodable s = true -> io_fault env (syscalls w) = false ->
  write env f s w = (append (name f) (encode_chunk env f s) (tick w), Returned (written f)).
Proof.
  intros Hs Hw. unfold write. rewrite Hs, syscall_ok by assumption. reflexivity.
Qed.

Lemma write_unencodable f s w :
  forallb encodable s = false -> write env f s w = (w, Raised UnicodeEncodeError).
Proof. intros Hs. unfold write. rewrite Hs. reflexivity. Qed.

Lemma write_fault f s w :
  forallb encodable s = true -> io_fault env (syscalls w) = true ->
  write env f s w
  = (lose (name f) (accepted env (syscalls w)) (encode_chunk env f s) (tick w),
     Raised OSError).
Proof.
  intros Hs Hw. unfold write. rewrite Hs, syscall_fault by assumption. reflexivity.
Qed.

Lemma reader_pages_run reader w :
  reader_pages reader w = (w, pages_result reader).
Proof. reflexivity. Qed.

(** A document that shows a page has had its pages listed. *)
Lemma pages_listed reader pre x post :
  pages reader = pre ++ x :: post -> pages_result reader = Returned (pre ++ x :: post).
Proof.
  unfold pages. destruct (pages_result reader) as [pgs|e]; intros H.
  - rewrite H. reflexivity.
  - destruct pre; discriminate.
Qed.

Lemma pages_of_listing reader pgs :
  pages_result reader = Returned pgs -> pages reader = pgs.
Proof. unfold pages. intros ->. reflexivity. Qed.

Lemma open_w_ok path enc w :
  io_fault env (syscalls w) = false ->
  open_w env path enc w
  = (set_fs (<[path := []]> (fs w)) (tick w),
     Returned {| name := path; encoding := enc; first := true |}).
Proof. intros Hw. unfold open_w. rewrite run_bind, syscall_ok by assumption. reflexivity. Qed.

Lemma open_w_fault path enc w :
  io_fault env (syscalls w) = true ->
  open_w env path enc w = (tick w, Raised OSError).
Proof. intros Hw. unfold open_w. rewrite run_bind, syscall_fault by assumption. reflexivity. Qed.

(** Leaving a [with] block closes the file and lets the result of the
    body through, exception or not. *)
Lemma with_open_ok {A} path enc (body : TextIOWrapper -> M A) w :
  io_fault env (syscalls w) = false ->
  with_open env path enc body w
  = body {| name := path; encoding := enc; first := true |}
         (set_fs (<[path := []]> (fs w)) (tick w)).
Proof.
  intros Hw. unfold with_open. rewrite run_bind, open_w_ok by assumption.
  unfold finally. destruct (body _ _) as [w' [a|e]]; reflexivity.
Qed.

Lemma with_open_fault {A} path enc (body : TextIOWrapper -> M A) w :
  io_fault env (syscalls w) = true ->
  with_open env path enc body w = (tick w, Raised OSError).
Proof.
  intros Hw. unfold with_open. rewrite run_bind, open_w_fault by assumption. reflexivity.
Qed.

Lemma os_chdir_ok path w :
  io_fault env (syscalls w) = false ->
  os_chdir env path w
  = ({| fs := fs w; cwd := path; stdout := stdout w; syscalls := S (syscalls w) |},
     Returned tt).
Proof. intros Hw. unfold os_chdir. rewrite run_bind, syscall_ok by assumption. reflexivity. Qed.

Lemma os_chdir_fault path w :
  io_fault env (syscalls w) = true -> os_chdir env path w = (tick w, Raised OSError).
Proof. intros Hw. unfold os_chdir. rewrite run_bind, syscall_fault by assumption. reflexivity. Qed.

Lemma PyPDF2_PdfReader_run path w :
  PyPDF2_PdfReader env path w = (w, open_pdf env (cwd w) path).
Proof. reflexivity. Qed.

(** A write to a file opened as [utf-8] that holds [content]. *)
Lemma write_utf_8 f s w content :
  encoding f = utf_8 ->
  forallb encodable s = true -> io_fault env (syscalls w) = false ->
  fs w !! name f = Some content ->
  write env f s w
  = ({| fs := <[name f := content ++ encode_text (os_name env) s]> (fs w);
        cwd := cwd w; stdout := stdout w; syscalls := S (syscalls w) |},
     Returned (written f)).
Proof.
  intros Hf Hs Hw Hc. rewrite write_ok by assumption. f_equal.
  unfold append, encode_chunk, set_fs, tick. cbn [fs cwd stdout syscalls].
  rewrite Hc, Hf. reflexivity.
Qed.

Lemma all_encodable_app s1 s2 :
  forallb encodable s1 = true -> forallb encodable s2 = true ->
  forallb encodable (s1 ++ s2) = true.
Proof. intros H1 H2. rewrite forallb_app, H1, H2. reflexivity. Qed.

Lemma digits_encodable d : forallb encodable (digits d) = true.
Proof. induction d; simpl; try assumption; reflexivity. Qed.

Lemma page_header_encodable n : forallb encodable (page_header n) = true.
Proof.
  unfold page_header, HEADER. rewrite !forallb_app.
  unfold format_int. rewrite digits_encodable. reflexivity.
Qed.

End Steps.

(** ** extract_prd.py, step by step *)

Section Concatenated.

Variable env : Env.

Lemma extract_prd_page_ok page t f w content :
  extract_text_result page = Returned t ->
  forallb encodable t = true ->
  encoding f = utf_8 ->
  io_fault env (syscalls w) = false ->
  fs w !! name f = Some content ->
  extract_prd_page env page f w
  = ({| fs := <[name f := content ++ encode_text (os_name env) (t ++ PAGE_BREAK)]> (fs w);
        cwd := cwd w; stdout := stdout w; syscalls := S (syscalls w) |},
     Returned (written f)).
Proof.
  intros Ht Henc Hf Hw Hc. unfold extract_prd_page, extract_text, lift.
  rewrite run_bind, Ht, write_ok
    by (assumption || (apply all_encodable_app; [assumption | reflexivity])).
  f_equal. unfold append, encode_chunk, set_fs, tick. simpl. rewrite Hc, Hf. reflexivity.
Qed.

(** The loop over pages that all yield encodable text, with no call
    failing: the file grows by the encoded texts, each with its marker. *)
Lemma extract_prd_loop pgs : forall texts f w content,
  texts_of pgs texts -> all_encodable texts ->
  encoding f = utf_8 ->
  quiet env (syscalls w) (length pgs) ->
  fs w !! name f = Some content ->
  exists f',
    for_each pgs (extract_prd_page env) f w
    = ({| fs := <[name f := content ++ encode_text (os_name env) (concatenated texts)]> (fs w);
          cwd := cwd w; stdout := stdout w;
          syscalls := (syscalls w + length pgs)%nat |},
       Returned f')
    /\ name f' = name f /\ encoding f' = utf_8.
Proof.
  induction pgs as [|p pgs IH]; intros texts f w content Htx Henc Hf Hq Hc.
  - destruct texts; [|discriminate]. exists f. split; [|auto].
    simpl. rewrite run_ret. f_equal. apply World_eq; simpl; try reflexivity; [|lia].
    rewrite app_nil_r, insert_id by assumption. reflexivity.
  - apply texts_of_cons_inv in Htx as (t & ts & -> & Ht & Hts).
    apply Forall_cons in Henc as [Het Hets].
    cbn [for_each]. rewrite run_bind.
    rewrite (extract_prd_page_ok p t f w content)
      by (try assumption; apply (quiet_head _ _ _ Hq)).
    destruct (IH ts (written f)
               {| fs := <[name f := content ++ encode_text (os_name env) (t ++ PAGE_BREAK)]> (fs w);
                  cwd := cwd w; stdout := stdout w; syscalls := S (syscalls w) |}
               (content ++ encode_text (os_name env) (t ++ PAGE_BREAK)))
      as (f' & Hrun & Hn & He);
      try assumption; [apply (quiet_tail _ _ _ Hq) | apply lookup_insert_eq |].
    cbn [name written fs cwd stdout syscalls] in Hrun, Hn.
    exists f'. split; [|auto]. rewrite Hrun. f_equal.
    apply World_eq; cbn [fs cwd stdout syscalls length]; try reflexivity; [|lia].
    rewrite insert_insert_eq. unfold concatenated. cbn [map concat].
    rewrite (encode_text_app _ (t ++ PAGE_BREAK)), app_assoc. reflexivity.
Qed.

(** The script up to its loop. *)
Lemma extract_prd_start w reader pgs :
  quiet env (syscalls w) 2 ->
  open_pdf env WORKDIR PDF_NAME = Returned reader ->
  pages_result reader = Returned pgs ->
  extract_prd env w
  = match for_each pgs (extract_prd_page env) (opened PRD_FULL utf_8)
            (in_loop PRD_FULL w) with
    | (w', Returned _) => print (lit "Done") w'
    | (w', Raised e) => (w', Raised e)
    end.
Proof.
  intros Hq Hpdf Hl. unfold extract_prd.
  rewrite run_bind, os_chdir_ok by (apply Hq; lia).
  rewrite run_bind, PyPDF2_PdfReader_run. cbn [cwd]. rewrite Hpdf.
  rewrite run_bind, with_open_ok by (apply Hq; simpl; lia).
  rewrite run_bind, reader_pages_run, Hl.
  reflexivity.
Qed.

(** A run in which nothing fails. *)
Lemma extract_prd_run w reader texts :
  quiet env (syscalls w) (2 + length texts) ->
  open_pdf env WORKDIR PDF_NAME = Returned reader ->
  texts_of (pages reader) texts -> all_encodable texts ->
  pages_result reader = Returned (pages reader) ->
  extract_prd env w
  = ({| fs := <[PRD_FULL := encode_text (os_name env) (concatenated texts)]> (fs w);
        cwd := WORKDIR; stdout := stdout w ++ [lit "Done"];
        syscalls := (syscalls w + 2 + length texts)%nat |},
     Returned tt).
Proof.
  intros Hq Hpdf Htx Henc Hl.
  assert (Hq2 : quiet env (syscalls w) 2)
    by (apply (quiet_le _ _ (2 + length texts)); [lia | assumption]).
  rewrite (extract_prd_start w reader (pages reader)) by assumption.
  pose proof (texts_of_length _ _ Htx) as Hlen.
  destruct (extract_prd_loop (pages reader) texts (opened PRD_FULL utf_8)
              (in_loop PRD_FULL w) []) as (f' & Hrun & _);
    try assumption; try reflexivity.
  { intros k Hk. apply Hq. simpl in Hk. lia. }
  { apply lookup_insert_eq. }
  rewrite Hrun. unfold print, modify. f_equal.
  apply World_eq; simpl; try reflexivity; [|lia].
  apply insert_insert_eq.
Qed.

End Concatenated.

(** ** extract_prd2.py, step by step *)

Section Headered.

Variable env : Env.

Lemma extract_prd2_page_ok i page t f w content :
  extract_text_result page = Returned t ->
  forallb encodable t = true ->
  encoding f = utf_8 ->
  quiet env (syscalls w) 2 ->
  fs w !! name f = Some content ->
  extract_prd2_page env (i, page) f w
  = ({| fs := <[name f := content ++ encode_text (os_name env) (page_header (i + 1) ++ t)]> (fs w);
        cwd := cwd w; stdout := stdout w; syscalls := S (S (syscalls w)) |},
     Returned (written f)).
Proof.
  intros Ht Henc Hf Hq Hc. unfold extract_prd2_page, extract_text, lift.
  rewrite run_bind, Ht.
  rewrite run_bind, (write_utf_8 env f _ w content)
    by first [assumption | apply page_header_encodable | apply Hq; lia].
  rewrite (write_utf_8 env (written f) t _ (content ++ encode_text (os_name env) (page_header (i + 1))));
    [| assumption | assumption | apply Hq; cbn [syscalls]; lia | apply lookup_insert_eq].
  f_equal. cbn [fs cwd stdout syscalls name written].
  rewrite insert_insert_eq, encode_text_app, app_assoc. reflexivity.
Qed.

Lemma extract_prd2_loop pgs : forall i texts f w content,
  texts_of pgs texts -> all_encodable texts ->
  encoding f = utf_8 ->
  quiet env (syscalls w) (2 * length pgs) ->
  fs w !! name f = Some content ->
  exists f',
    for_each (enumerate_from i pgs) (extract_prd2_page env) f w
    = ({| fs := <[name f := content ++ encode_text (os_name env)
                     (concat (map (fun '(i, t) => page_header (i + 1) ++ t)
                                  (enumerate_from i texts)))]> (fs w);
          cwd := cwd w; stdout := stdout w;
          syscalls := (syscalls w + 2 * length pgs)%nat |},
       Returned f')
    /\ name f' = name f /\ encoding f' = utf_8.
Proof.
  induction pgs as [|p pgs IH]; intros i texts f w content Htx Henc Hf Hq Hc.
  - destruct texts; [|discriminate]. exists f. split; [|auto].
    simpl. rewrite run_ret. f_equal. apply World_eq; simpl; try reflexivity; [|lia].
    rewrite app_nil_r, insert_id by assumption. reflexivity.
  - apply texts_of_cons_inv in Htx as (t & ts & -> & Ht & Hts).
    apply Forall_cons in Henc as [Het Hets].
    cbn [enumerate_from for_each]. rewrite run_bind.
    rewrite (extract_prd2_page_ok i p t f w content)
      by (try assumption; intros k Hk; apply Hq; simpl; lia).
    destruct (IH (i + 1) ts (written f)
               {| fs := <[name f := content ++ encode_text (os_name env) (page_header (i + 1) ++ t)]> (fs w);
                  cwd := cwd w; stdout := stdout w; syscalls := S (S (syscalls w)) |}
               (content ++ encode_text (os_name env) (page_header (i + 1) ++ t)))
      as (f' & Hrun & Hn & He);
      try assumption;
      [intros k Hk; apply Hq; simpl in *; lia | apply lookup_insert_eq |].
    cbn [name written fs cwd stdout syscalls] in Hrun, Hn.
    exists f'. split; [|auto]. rewrite Hrun. f_equal.
    apply World_eq; cbn [fs cwd stdout syscalls length]; try reflexivity; [|lia].
    rewrite insert_insert_eq. cbn [map concat].
    rewrite (encode_text_app _ (page_header (i + 1) ++ t)), app_assoc. reflexivity.
Qed.

Lemma extract_prd2_start w reader pgs :
  quiet env (syscalls w) 2 ->
  open_pdf env WORKDIR PDF_NAME = Returned reader ->
  pages_result reader = Returned pgs ->
  extract_prd2 env w
  = match for_each (enumerate pgs) (extract_prd2_page env)
            (opened output_path utf_8) (in_loop output_path w) with
    | (w', Returned _) => print (extracted_line (length pgs)) w'
    | (w', Raised e) => (w', Raised e)
    end.
Proof.
  intros Hq Hpdf Hl. unfold extract_prd2.
  rewrite run_bind, os_chdir_ok by (apply Hq; lia).
  rewrite run_bind, PyPDF2_PdfReader_run. cbn [cwd]. rewrite Hpdf.
  rewrite run_bind, with_open_ok by (apply Hq; simpl; lia).
  rewrite run_bind, reader_pages_run, Hl.
  destruct (for_each _ _ _ _) as [w' [f'|e]]; [|reflexivity].
  rewrite run_bind, reader_pages_run, Hl. reflexivity.
Qed.

Lemma extract_prd2_run w reader texts :
  quiet env (syscalls w) (2 + 2 * length texts) ->
  open_pdf env WORKDIR PDF_NAME = Returned reader ->
  texts_of (pages reader) texts -> all_encodable texts ->
  pages_result reader = Returned (pages reader) ->
  extract_prd2 env w
  = ({| fs := <[output_path := encode_text (os_name env) (headered texts)]> (fs w);
        cwd := WORKDIR; stdout := stdout w ++ [extracted_line (length texts)];
        syscalls := (syscalls w + 2 + 2 * length texts)%nat |},
     Returned tt).
Proof.
  intros Hq Hpdf Htx Henc Hl.
  assert (Hq2 : quiet env (syscalls w) 2)
    by (apply (quiet_le _ _ (2 + 2 * length texts)); [lia | assumption]).
  rewrite (extract_prd2_start w reader (pages reader)) by assumption.
  pose proof (texts_of_length _ _ Htx) as Hlen.
  destruct (extract_prd2_loop (pages reader) 0 texts (opened output_path utf_8)
              (in_loop output_path w) []) as (f' & Hrun & _);
    try assumption; try reflexivity.
  { intros k Hk. apply Hq. simpl in Hk. lia. }
  { apply lookup_insert_eq. }
  unfold enumerate. rewrite Hrun. unfold print, modify. f_equal.
  apply World_eq; simpl; try reflexivity; [| rewrite Hlen; reflexivity | lia].
  apply insert_insert_eq.
Qed.

End Headered.

(** ** extract_prd_pages.py, step by step *)

Section PerPage.

Variable env : Env.

Lemma extract_prd_pages_page_ok i page t w :
  extract_text_result page = Returned t ->
  forallb encodable t = true ->
  quiet env (syscalls w) 2 ->
  extract_prd_pages_page env (i, page) tt w
  = ({| fs := <[page_path env (i + 1) := page_content (os_name env) t]> (fs w);
        cwd := cwd w; stdout := stdout w ++ [page_line (os_name env) i t];
        syscalls := S (S (syscalls w)) |},
     Returned tt).
Proof.
  intros Ht Henc Hq. unfold extract_prd_pages_page.
  rewrite run_bind, with_open_ok by (apply Hq; lia).
  rewrite run_bind. unfold extract_text, lift. rewrite Ht.
  rewrite write_ok by first [assumption | apply Hq; cbn [set_fs tick syscalls]; lia].
  unfold append, encode_chunk, set_fs, tick. cbn [fs cwd stdout syscalls name encoding first].
  rewrite lookup_insert_eq, insert_insert_eq. cbn [default from_option id app].
  rewrite run_bind. unfold os_path_getsize. cbn [fs]. rewrite lookup_insert_eq.
  reflexivity.
Qed.

Lemma extract_prd_pages_loop pgs : forall i texts w,
  texts_of pgs texts -> all_encodable texts ->
  quiet env (syscalls w) (2 * length pgs) ->
  for_each (enumerate_from i pgs) (extract_prd_pages_page env) tt w
  = ({| fs := page_files env i texts (fs w);
        cwd := cwd w; stdout := stdout w ++ page_lines (os_name env) i texts;
        syscalls := (syscalls w + 2 * length pgs)%nat |},
     Returned tt).
Proof.
  induction pgs as [|p pgs IH]; intros i texts w Htx Henc Hq.
  - destruct texts; [|discriminate].
    simpl. rewrite run_ret. f_equal. apply World_eq; simpl; try reflexivity; [|lia].
    rewrite app_nil_r. reflexivity.
  - apply texts_of_cons_inv in Htx as (t & ts & -> & Ht & Hts).
    apply Forall_cons in Henc as [Het Hets].
    cbn [enumerate_from for_each]. rewrite run_bind.
    rewrite (extract_prd_pages_page_ok i p t w)
      by (try assumption; intros k Hk; apply Hq; simpl; lia).
    rewrite IH with (texts := ts);
      [| assumption | assumption | intros k Hk; apply Hq; simpl in *; lia].
    f_equal. apply World_eq; cbn [fs cwd stdout syscalls length]; try reflexivity; [|lia].
    unfold page_lines. cbn [enumerate_from map]. rewrite <- app_assoc. reflexivity.
Qed.

Lemma extract_prd_pages_start w reader pgs :
  io_fault env (syscalls w) = false ->
  open_pdf env WORKDIR PDF_NAME = Returned reader ->
  pages_result reader = Returned pgs ->
  extract_prd_pages env w
  = match for_each (enumerate pgs) (extract_prd_pages_page env) tt
            {| fs := fs w; cwd := WORKDIR; stdout := stdout w;
               syscalls := S (syscalls w) |} with
    | (w', Returned _) => print (lit "Done") w'
    | (w', Raised e) => (w', Raised e)
    end.
Proof.
  intros Hq Hpdf Hl. unfold extract_prd_pages.
  rewrite run_bind, os_chdir_ok by assumption.
  rewrite run_bind, PyPDF2_PdfReader_run. cbn [cwd]. rewrite Hpdf.
  rewrite run_bind, reader_pages_run, Hl.
  rewrite run_bind. reflexivity.
Qed.

Lemma extract_prd_pages_run w reader texts :
  quiet env (syscalls w) (1 + 2 * length texts) ->
  open_pdf env WORKDIR PDF_NAME = Returned reader ->
  texts_of (pages reader) texts -> all_encodable texts ->
  pages_result reader = Returned (pages reader) ->
  extract_prd_pages env w
  = ({| fs := page_files env 0 texts (fs w);
        cwd := WORKDIR;
        stdout := stdout w ++ page_lines (os_name env) 0 texts ++ [lit "Done"];
        syscalls := (syscalls w + 1 + 2 * length texts)%nat |},
     Returned tt).
Proof.
  intros Hq Hpdf Htx Henc Hl.
  rewrite (extract_prd_pages_start w reader (pages reader))
    by (try assumption; apply Hq; lia).
  pose proof (texts_of_length _ _ Htx) as Hlen.
  unfold enumerate. rewrite extract_prd_pages_loop with (texts := texts);
    [| assumption | assumption | intros k Hk; apply Hq; simpl in Hk; lia].
  unfold print, modify. f_equal.
  apply World_eq; simpl; try reflexivity; [|lia].
  rewrite <- app_assoc. reflexivity.
Qed.

End PerPage.

(** ** The page files *)

Section PageFiles.

Variable env : Env.

Lemma page_path_eq n :
  page_path env n
  = outdir ++ sep (os_name env) :: lit "prd_page_" ++ format_int n ++ lit ".md".
Proof. unfold page_path, os_path_join. destruct (os_name env); reflexivity. Qed.

(** Different page numbers have different files. *)
Lemma page_path_inj : Inj (=) (=) (page_path env).
Proof.
  intros n m H. rewrite !page_path_eq in H.
  apply app_inv_head in H. injection H as H.
  apply app_inv_tail in H. apply format_int_inj, H.
Qed.

Lemma page_files_cons i t ts m :
  page_files env i (t :: ts) m
  = page_files env (i + 1) ts (<[page_path env (i + 1) := page_content (os_name env) t]> m).
Proof. reflexivity. Qed.

(** A path that is none of the page files keeps what it has. *)
Lemma page_files_frame p texts : forall i m,
  (forall k, (k < length texts)%nat -> p <> page_path env (i + N.of_nat k + 1)) ->
  page_files env i texts m !! p = m !! p.
Proof.
  induction texts as [|t ts IH]; intros i m Hp; [reflexivity|].
  rewrite page_files_cons, IH.
  - apply lookup_insert_ne. intros E. apply (Hp 0%nat); [simpl; lia|].
    rewrite <- E. f_equal. lia.
  - intros k Hk. replace (i + 1 + N.of_nat k + 1) with (i + N.of_nat (S k) + 1) by lia.
    apply Hp. simpl. lia.
Qed.

(** The file of page [k] holds the text of page [k]. *)
Lemma page_files_lookup texts : forall i m k t,
  texts !! k = Some t ->
  page_files env i texts m !! page_path env (i + N.of_nat k + 1)
  = Some (page_content (os_name env) t).
Proof.
  induction texts as [|t0 ts IH]; intros i m k t Hk; [discriminate|].
  rewrite page_files_cons. destruct k as [|k]; simpl in Hk.
  - injection Hk as ->. rewrite page_files_frame.
    + replace (i + N.of_nat 0 + 1) with (i + 1) by lia. apply lookup_insert_eq.
    + intros k Hk E. apply page_path_inj in E. lia.
  - replace (i + N.of_nat (S k) + 1) with (i + 1 + N.of_nat k + 1) by lia.
    apply IH, Hk.
Qed.

Lemma elem_of_page_paths p n :
  p ∈ page_paths env n <-> exists k, (k < n)%nat /\ p = page_path env (N.of_nat k + 1).
Proof.
  unfold page_paths, page_numbers. rewrite list_elem_of_fmap. split.
  - intros (x & -> & Hx). apply list_elem_of_fmap in Hx as (k & -> & Hk).
    apply elem_of_seq in Hk. exists k. split; [lia | reflexivity].
  - intros (k & Hk & ->). eexists. split; [reflexivity|].
    apply list_elem_of_fmap. exists k. split; [reflexivity|].
    apply elem_of_seq. lia.
Qed.

Lemma page_paths_NoDup n : NoDup (page_paths env n).
Proof.
  unfold page_paths, page_numbers. apply NoDup_fmap_2; [apply page_path_inj|].
  apply NoDup_fmap_2; [intros a b H; lia | apply NoDup_seq].
Qed.

Lemma page_paths_length n : length (page_paths env n) = n.
Proof. unfold page_paths, page_numbers. rewrite !length_map, length_seq. reflexivity. Qed.

Lemma page_files_frame_0 p texts m :
  p ∉ page_paths env (length texts) -> page_files env 0 texts m !! p = m !! p.
Proof.
  intros Hp. apply page_files_frame. intros k Hk ->. apply Hp, elem_of_page_paths.
  exists k. split; [assumption | f_equal; lia].
Qed.

(** Writing the page files again changes nothing. *)
Lemma page_files_idemp texts m :
  page_files env 0 texts (page_files env 0 texts m) = page_files env 0 texts m.
Proof.
  apply map_eq. intros p.
  destruct (decide (p ∈ page_paths env (length texts))) as [Hp | Hp].
  - apply elem_of_page_paths in Hp as (k & Hk & ->).
    destruct (lookup_lt_is_Some_2 texts k Hk) as [t Ht].
    rewrite !(page_files_lookup texts 0 _ k t Ht). reflexivity.
  - rewrite page_files_frame_0 by assumption. reflexivity.
Qed.

(** The files that exist afterwards: those that existed, and the page
    files. *)
Lemma page_files_dom texts : forall i m,
  dom (page_files env i texts m)
  = dom m ∪ list_to_set (map (fun k => page_path env (i + N.of_nat k + 1)) (seq 0 (length texts))).
Proof.
  induction texts as [|t ts IH]; intros i m.
  - simpl. rewrite union_empty_r_L. reflexivity.
  - rewrite page_files_cons, IH, dom_insert_L. cbn [length seq map list_to_set].
    replace (i + N.of_nat 0 + 1) with (i + 1) by lia.
    rewrite <- seq_shift, map_map.
    rewrite (map_ext (fun k => page_path env (i + N.of_nat (S k) + 1))
                     (fun k => page_path env (i + 1 + N.of_nat k + 1)))
      by (intros k; f_equal; lia).
    rewrite (union_comm_L {[page_path env (i + 1)]} (dom m)), <- union_assoc_L.
    reflexivity.
Qed.

Lemma page_files_dom_0 texts m :
  dom (page_files env 0 texts m) = dom m ∪ list_to_set (page_paths env (length texts)).
Proof.
  rewrite page_files_dom. unfold page_paths, page_numbers. rewrite map_map.
  reflexivity.
Qed.

End PageFiles.

(** ** Runs that fail *)

Lemma quiet_dec env a n : quiet env a n \/ ~ quiet env a n.
Proof.
  induction n as [|n [IH | IH]].
  - left. intros k Hk. lia.
  - destruct (io_fault env (a + n)) eqn:E.
    + right. intros H. rewrite H in E by lia. discriminate.
    + left. intros k Hk. destruct (decide (k = a + n)%nat) as [->|]; [assumption|].
      apply IH. lia.
  - right. intros H. apply IH. intros k Hk. apply H. lia.
Qed.

Lemma quiet_app env a n m : quiet env a n -> quiet env (a + n) m -> quiet env a (n + m).
Proof.
  intros H1 H2 k Hk. destruct (decide (k < a + n)%nat); [apply H1 | apply H2]; lia.
Qed.

Lemma quiet_two env a :
  io_fault env a = false -> io_fault env (S a) = false -> quiet env a 2.
Proof.
  intros H0 H1 k Hk. destruct (decide (k = a)) as [->|]; [assumption|].
  replace k with (S a) by lia. assumption.
Qed.

Lemma page_passes_dec env c n page : page_passes env c n page \/ ~ page_passes env c n page.
Proof.
  unfold page_passes. destruct (extract_text_result page) as [t|e].
  - destruct (forallb encodable t) eqn:E.
    + destruct (quiet_dec env n c) as [Hq | Hq]; [left; eauto|].
      right. intros (t' & _ & _ & H). tauto.
    + right. intros (t' & Ht & H & _). injection Ht as <-. congruence.
  - right. intros (t & H & _). discriminate.
Qed.

Lemma texts_of_cons p pgs t ts :
  extract_text_result p = Returned t -> texts_of pgs ts -> texts_of (p :: pgs) (t :: ts).
Proof. unfold texts_of. intros Ht Hts. simpl. rewrite Ht, Hts. reflexivity. Qed.

(** The pages of a document all pass, or there is a first page that
    does not. *)
Lemma pages_split env c pgs : forall s,
  (exists texts, texts_of pgs texts /\ all_encodable texts /\
                 quiet env s (c * length texts))
  \/ (exists pre page post texts,
        pgs = pre ++ page :: post /\ texts_of pre texts /\ all_encodable texts /\
        quiet env s (c * length texts) /\
        ~ page_passes env c (s + c * length texts) page).
Proof.
  induction pgs as [|p pgs IH]; intros s.
  - left. exists []. split; [reflexivity|]. split; [constructor|]. intros k Hk. simpl in Hk. lia.
  - destruct (page_passes_dec env c s p) as [(t & Ht & Henc & Hq) | Hn].
    + destruct (IH (s + c)%nat)
        as [(texts & Htx & Hall & Hq') | (pre & page & post & texts & -> & Htx & Hall & Hq' & Hn)].
      * left. exists (t :: texts). split; [apply texts_of_cons; assumption|].
        split; [constructor; assumption|].
        cbn [length]. rewrite Nat.mul_succ_r, (Nat.add_comm _ c).
        apply quiet_app; assumption.
      * right. exists (p :: pre), page, post, (t :: texts).
        split; [reflexivity|]. split; [apply texts_of_cons; assumption|].
        split; [constructor; assumption|].
        cbn [length]. rewrite Nat.mul_succ_r, (Nat.add_comm _ c).
        split; [apply quiet_app; assumption|].
        rewrite Nat.add_assoc. exact Hn.
    + right. exists [], p, pgs, []. split; [reflexivity|]. split; [reflexivity|].
      split; [constructor|]. cbn [length]. rewrite Nat.mul_0_r, Nat.add_0_r.
      split; [intros k Hk; lia | exact Hn].
Qed.

Lemma forallb_app_false_l (s1 s2 : str) :
  forallb encodable s1 = false -> forallb encodable (s1 ++ s2) = false.
Proof. intros H. rewrite forallb_app, H. reflexivity. Qed.

Lemma in_loop_stopped path w : in_loop path w = stopped path [] 0 w.
Proof. apply World_eq; simpl; try reflexivity. lia. Qed.

(** *** extract_prd.py *)

Section ConcatenatedStops.

Variable env : Env.

(** The pages before the failing one have been written. *)
Lemma extract_prd_before w pre texts :
  texts_of pre texts -> all_encodable texts ->
  quiet env (syscalls w) (2 + length texts) ->
  exists f',
    for_each pre (extract_prd_page env) (opened PRD_FULL utf_8) (in_loop PRD_FULL w)
    = (stopped PRD_FULL (encode_text (os_name env) (concatenated texts)) (length texts) w,
       Returned f')
    /\ name f' = PRD_FULL /\ encoding f' = utf_8.
Proof.
  intros Htx Henc Hq. pose proof (texts_of_length _ _ Htx) as Hlen.
  destruct (extract_prd_loop env pre texts (opened PRD_FULL utf_8) (in_loop PRD_FULL w) [])
    as (f' & Hrun & Hn & He); try assumption; try reflexivity.
  { intros k Hk. apply Hq. simpl in Hk. lia. }
  { apply lookup_insert_eq. }
  exists f'. split; [|auto]. rewrite Hrun. f_equal.
  apply World_eq; simpl; try reflexivity; [apply insert_insert_eq | lia].
Qed.

Lemma extract_prd_stops w reader pre x post texts w' e :
  quiet env (syscalls w) (2 + length texts) ->
  open_pdf env WORKDIR PDF_NAME = Returned reader ->
  pages reader = pre ++ x :: post ->
  texts_of pre texts -> all_encodable texts ->
  (forall f, name f = PRD_FULL -> encoding f = utf_8 ->
     extract_prd_page env x f
       (stopped PRD_FULL (encode_text (os_name env) (concatenated texts)) (length texts) w)
     = (w', Raised e)) ->
  extract_prd env w = (w', Raised e).
Proof.
  intros Hq Hpdf Hpages Htx Henc Hx.
  assert (Hq2 : quiet env (syscalls w) 2)
    by (apply (quiet_le _ _ (2 + length texts)); [lia | assumption]).
  rewrite (extract_prd_start env w reader (pre ++ x :: post))
    by (assumption || apply pages_listed, Hpages).
  destruct (extract_prd_before w pre texts Htx Henc Hq) as (f' & Hpre & Hn & He).
  rewrite (for_each_raise pre post x _ _ _ _ f' w' e Hpre (Hx f' Hn He)).
  reflexivity.
Qed.

End ConcatenatedStops.

Section ConcatenatedFailing.

Variable env : Env.

(** The world and the exception of a page that fails are those of the
    body of the loop. *)
Lemma extract_prd_page_fails_run page w0 w' e f :
  name f = PRD_FULL -> encoding f = utf_8 ->
  extract_prd_page_fails env page w0 w' e ->
  extract_prd_page env page f w0 = (w', Raised e).
Proof.
  intros Hn He H. unfold extract_prd_page, extract_text, lift. rewrite run_bind.
  destruct H as [e Ht | t Ht Henc | t Ht Henc Hw]; rewrite Ht.
  - reflexivity.
  - apply write_unencodable, forallb_app_false_l, Henc.
  - rewrite write_fault;
      [| apply all_encodable_app; [assumption | reflexivity] | assumption].
    unfold encode_chunk. rewrite Hn, He. reflexivity.
Qed.

(** A page that does not pass fails in one of the three ways. *)
Lemma extract_prd_page_fails_total page w0 :
  ~ page_passes env 1 (syscalls w0) page ->
  exists w' e, extract_prd_page_fails env page w0 w' e.
Proof.
  intros Hn. destruct (extract_text_result page) as [t|e] eqn:Ht.
  - destruct (forallb encodable t) eqn:Henc.
    + destruct (io_fault env (syscalls w0)) eqn:Hw.
      * eexists _, _. eapply extract_prd_no_write; eassumption.
      * exfalso. apply Hn. exists t. split; [assumption|]. split; [assumption|].
        intros k Hk. replace k with (syscalls w0) by lia. assumption.
    + eexists _, _. eapply extract_prd_no_encoding; eassumption.
  - eexists _, _. apply extract_prd_no_text, Ht.
Qed.

(** Every run of the first script ends in one of the ways of
    [extract_prd_ends]. *)
Lemma extract_prd_run_ends w : extract_prd_ends env w (extract_prd env w).
Proof.
  destruct (io_fault env (syscalls w)) eqn:H0.
  { replace (extract_prd env w) with (tick w, Raised OSError : Outcome unit).
    - apply extract_prd_ends_chdir, H0.
    - unfold extract_prd. rewrite run_bind, os_chdir_fault by assumption. reflexivity. }
  destruct (open_pdf env WORKDIR PDF_NAME) as [reader|e] eqn:Hpdf.
  2:{ replace (extract_prd env w) with (in_workdir w, Raised e : Outcome unit).
      - apply extract_prd_ends_pdf; assumption.
      - unfold extract_prd. rewrite run_bind, os_chdir_ok by assumption.
        rewrite run_bind, PyPDF2_PdfReader_run. cbn [cwd]. rewrite Hpdf. reflexivity. }
  destruct (io_fault env (S (syscalls w))) eqn:H1.
  { replace (extract_prd env w) with (tick (in_workdir w), Raised OSError : Outcome unit).
    - eapply extract_prd_ends_open; eassumption.
    - unfold extract_prd. rewrite run_bind, os_chdir_ok by assumption.
      rewrite run_bind, PyPDF2_PdfReader_run. cbn [cwd]. rewrite Hpdf.
      rewrite run_bind, with_open_fault by assumption. reflexivity. }
  pose proof (quiet_two env _ H0 H1) as Hq2.
  destruct (pages_result reader) as [pgs|e] eqn:Hl.
  2:{ replace (extract_prd env w) with (stopped PRD_FULL [] 0 w, Raised e : Outcome unit).
      - eapply extract_prd_ends_listing; eassumption.
      - unfold extract_prd. rewrite run_bind, os_chdir_ok by assumption.
        rewrite run_bind, PyPDF2_PdfReader_run. cbn [cwd]. rewrite Hpdf.
        rewrite run_bind, with_open_ok by assumption.
        rewrite run_bind, reader_pages_run, Hl. cbn [fst snd].
        f_equal. symmetry. apply (in_loop_stopped PRD_FULL w). }
  pose proof (pages_of_listing _ _ Hl) as Hpages.
  destruct (pages_split env 1 pgs (S (S (syscalls w))))
    as [(texts & Htx & Hall & Hq) | (pre & page & post & texts & -> & Htx & Hall & Hq & Hn)].
  - assert (Hqa : quiet env (syscalls w) (2 + length texts)).
    { apply quiet_app; [assumption|].
      replace (syscalls w + 2)%nat with (S (S (syscalls w))) by lia.
      replace (length texts) with (1 * length texts)%nat by lia. assumption. }
    rewrite (extract_prd_run env w reader texts); try assumption;
      [| rewrite Hpages; assumption | rewrite Hpages; assumption].
    apply extract_prd_ends_done. split; [assumption|]. exists reader.
    rewrite Hpages. auto.
  - assert (Hqa : quiet env (syscalls w) (2 + length texts)).
    { apply quiet_app; [assumption|].
      replace (syscalls w + 2)%nat with (S (S (syscalls w))) by lia.
      replace (length texts) with (1 * length texts)%nat by lia. assumption. }
    destruct (extract_prd_page_fails_total page
                (stopped PRD_FULL (encode_text (os_name env) (concatenated texts))
                   (length texts) w)) as (w' & e & Hfail).
    { cbn [stopped syscalls].
      replace (syscalls w + 2 + length texts)%nat
        with (S (S (syscalls w)) + 1 * length texts)%nat by lia.
      exact Hn. }
    rewrite (extract_prd_stops env w reader pre page post texts w' e); try assumption.
    + eapply extract_prd_ends_page; eassumption.
    + intros f Hf He. apply extract_prd_page_fails_run; assumption.
Qed.

(** What every run of the first script has in common: it touches no
    file but its output file, it returns only when nothing fails, and
    when it raises it has printed nothing. *)
Lemma extract_prd_ends_summary w w' r :
  extract_prd_ends env w (w', r) ->
  (forall c, <[PRD_FULL := c]> (fs w') = <[PRD_FULL := c]> (fs w)) /\
  match r with
  | Returned _ =>
      exists texts, nothing_fails env w (2 + length texts) texts /\
                    stdout w' = stdout w ++ [lit "Done"]
  | Raised _ => stdout w' = stdout w
  end.
Proof.
  intros H. inversion H as [ | | | | reader pre page post texts w1 e1 Hq Hpdf Hl Htx Hall Hf | texts Hok];
    subst; cbn [fs stdout tick in_workdir stopped]; try (split; [reflexivity | reflexivity]).
  - split; [intros c; apply insert_insert_eq | reflexivity].
  - inversion Hf; subst; cbn [fs stdout tick stopped lose set_fs];
      (split; [intros c; rewrite ?insert_insert_eq; reflexivity | reflexivity]).
  - split; [intros c; apply insert_insert_eq|]. exists texts. split; [assumption | reflexivity].
Qed.

End ConcatenatedFailing.

(** *** extract_prd2.py *)

Section HeaderedStops.

Variable env : Env.

Lemma extract_prd2_before w pre texts :
  texts_of pre texts -> all_encodable texts ->
  quiet env (syscalls w) (2 + 2 * length texts) ->
  exists f',
    for_each (enumerate_from 0 pre) (extract_prd2_page env) (opened output_path utf_8)
      (in_loop output_path w)
    = (stopped output_path (encode_text (os_name env) (headered texts)) (2 * length texts) w,
       Returned f')
    /\ name f' = output_path /\ encoding f' = utf_8.
Proof.
  intros Htx Henc Hq. pose proof (texts_of_length _ _ Htx) as Hlen.
  destruct (extract_prd2_loop env pre 0 texts (opened output_path utf_8)
              (in_loop output_path w) [])
    as (f' & Hrun & Hn & He); try assumption; try reflexivity.
  { intros k Hk. apply Hq. simpl in Hk. lia. }
  { apply lookup_insert_eq. }
  exists f'. split; [|auto]. rewrite Hrun. f_equal.
  apply World_eq; simpl; try reflexivity; [apply insert_insert_eq | lia].
Qed.

Lemma extract_prd2_stops w reader pre x post texts w' e :
  quiet env (syscalls w) (2 + 2 * length texts) ->
  open_pdf env WORKDIR PDF_NAME = Returned reader ->
  pages reader = pre ++ x :: post ->
  texts_of pre texts -> all_encodable texts ->
  (forall f, name f = output_path -> encoding f = utf_8 ->
     extract_prd2_page env (N.of_nat (length texts), x) f
       (stopped output_path (encode_text (os_name env) (headered texts))
          (2 * length texts) w)
     = (w', Raised e)) ->
  extract_prd2 env w = (w', Raised e).
Proof.
  intros Hq Hpdf Hpages Htx Henc Hx.
  assert (Hq2 : quiet env (syscalls w) 2)
    by (apply (quiet_le _ _ (2 + 2 * length texts)); [lia | assumption]).
  rewrite (extract_prd2_start env w reader (pre ++ x :: post))
    by (assumption || apply pages_listed, Hpages).
  destruct (extract_prd2_before w pre texts Htx Henc Hq) as (f' & Hpre & Hn & He).
  unfold enumerate. rewrite enumerate_from_app. cbn [enumerate_from].
  rewrite (texts_of_length _ _ Htx), N.add_0_l.
  rewrite (for_each_raise _ _ _ _ _ _ _ f' w' e Hpre (Hx f' Hn He)).
  reflexivity.
Qed.

End HeaderedStops.

Section HeaderedFailing.

Variable env : Env.

Lemma extract_prd2_page_fails_run i page w0 w' e f :
  name f = output_path -> encoding f = utf_8 ->
  extract_prd2_page_fails env i page w0 w' e ->
  extract_prd2_page env (i, page) f w0 = (w', Raised e).
Proof.
  intros Hn He H. unfold extract_prd2_page, extract_text, lift. rewrite run_bind.
  destruct H as [e Ht | t Ht Hw | t Ht Hw Henc | t Ht Hw Henc Hw1]; rewrite Ht.
  - reflexivity.
  - rewrite run_bind, write_fault by (assumption || apply page_header_encodable).
    unfold encode_chunk. rewrite Hn, He. reflexivity.
  - rewrite run_bind, write_ok by (assumption || apply page_header_encodable).
    rewrite write_unencodable by assumption.
    unfold encode_chunk. rewrite Hn, He. reflexivity.
  - rewrite run_bind, write_ok by (assumption || apply page_header_encodable).
    rewrite write_fault by assumption.
    unfold encode_chunk. cbn [name encoding written]. rewrite Hn, He. reflexivity.
Qed.

Lemma extract_prd2_page_fails_total i page w0 :
  ~ page_passes env 2 (syscalls w0) page ->
  exists w' e, extract_prd2_page_fails env i page w0 w' e.
Proof.
  intros Hn. destruct (extract_text_result page) as [t|e] eqn:Ht.
  2:{ eexists _, _. apply extract_prd2_no_text, Ht. }
  destruct (io_fault env (syscalls w0)) eqn:Hw.
  { eexists _, _. eapply extract_prd2_no_header; eassumption. }
  destruct (forallb encodable t) eqn:Henc.
  2:{ eexists _, _. eapply extract_prd2_no_encoding; eassumption. }
  destruct (io_fault env (S (syscalls w0))) eqn:Hw1.
  { eexists _, _. eapply extract_prd2_no_write; eassumption. }
  exfalso. apply Hn. exists t. split; [assumption|]. split; [assumption|].
  apply quiet_two; assumption.
Qed.

(** Every run of the second script ends in one of the ways of
    [extract_prd2_ends]. *)
Lemma extract_prd2_run_ends w : extract_prd2_ends env w (extract_prd2 env w).
Proof.
  destruct (io_fault env (syscalls w)) eqn:H0.
  { replace (extract_prd2 env w) with (tick w, Raised OSError : Outcome unit).
    - apply extract_prd2_ends_chdir, H0.
    - unfold extract_prd2. rewrite run_bind, os_chdir_fault by assumption. reflexivity. }
  destruct (open_pdf env WORKDIR PDF_NAME) as [reader|e] eqn:Hpdf.
  2:{ replace (extract_prd2 env w) with (in_workdir w, Raised e : Outcome unit).
      - apply extract_prd2_ends_pdf; assumption.
      - unfold extract_prd2. rewrite run_bind, os_chdir_ok by assumption.
        rewrite run_bind, PyPDF2_PdfReader_run. cbn [cwd]. rewrite Hpdf. reflexivity. }
  destruct (io_fault env (S (syscalls w))) eqn:H1.
  { replace (extract_prd2 env w) with (tick (in_workdir w), Raised OSError : Outcome unit).
    - eapply extract_prd2_ends_open; eassumption.
    - unfold extract_prd2. rewrite run_bind, os_chdir_ok by assumption.
      rewrite run_bind, PyPDF2_PdfReader_run. cbn [cwd]. rewrite Hpdf.
      rewrite run_bind, with_open_fault by assumption. reflexivity. }
  pose proof (quiet_two env _ H0 H1) as Hq2.
  destruct (pages_result reader) as [pgs|e] eqn:Hl.
  2:{ replace (extract_prd2 env w) with (stopped output_path [] 0 w, Raised e : Outcome unit).
      - eapply extract_prd2_ends_listing; eassumption.
      - unfold extract_prd2. rewrite run_bind, os_chdir_ok by assumption.
        rewrite run_bind, PyPDF2_PdfReader_run. cbn [cwd]. rewrite Hpdf.
        rewrite run_bind, with_open_ok by assumption.
        rewrite run_bind, reader_pages_run, Hl. cbn [fst snd].
        f_equal. symmetry. apply (in_loop_stopped output_path w). }
  pose proof (pages_of_listing _ _ Hl) as Hpages.
  destruct (pages_split env 2 pgs (S (S (syscalls w))))
    as [(texts & Htx & Hall & Hq) | (pre & page & post & texts & -> & Htx & Hall & Hq & Hn)].
  - assert (Hqa : quiet env (syscalls w) (2 + 2 * length texts)).
    { apply quiet_app; [assumption|].
      replace (syscalls w + 2)%nat with (S (S (syscalls w))) by lia. assumption. }
    rewrite (extract_prd2_run env w reader texts); try assumption;
      [| rewrite Hpages; assumption | rewrite Hpages; assumption].
    apply extract_prd2_ends_done. split; [assumption|]. exists reader.
    rewrite Hpages. auto.
  - assert (Hqa : quiet env (syscalls w) (2 + 2 * length texts)).
    { apply quiet_app; [assumption|].
      replace (syscalls w + 2)%nat with (S (S (syscalls w))) by lia. assumption. }
    destruct (extract_prd2_page_fails_total (N.of_nat (length texts)) page
                (stopped output_path (encode_text (os_name env) (headered texts))
                   (2 * length texts) w)) as (w' & e & Hfail).
    { cbn [stopped syscalls].
      replace (syscalls w + 2 + 2 * length texts)%nat
        with (S (S (syscalls w)) + 2 * length texts)%nat by lia.
      exact Hn. }
    rewrite (extract_prd2_stops env w reader pre page post texts w' e); try assumption.
    + eapply extract_prd2_ends_page; eassumption.
    + intros f Hf He. apply extract_prd2_page_fails_run; assumption.
Qed.

Lemma extract_prd2_ends_summary w w' r :
  extract_prd2_ends env w (w', r) ->
  (forall c, <[output_path := c]> (fs w') = <[output_path := c]> (fs w)) /\
  match r with
  | Returned _ =>
      exists texts, nothing_fails env w (2 + 2 * length texts) texts /\
                    stdout w' = stdout w ++ [extracted_line (length texts)]
  | Raised _ => stdout w' = stdout w
  end.
Proof.
  intros H. inversion H as [ | | | | reader pre page post texts w1 e1 Hq Hpdf Hl Htx Hall Hf | texts Hok];
    subst; cbn [fs stdout tick in_workdir stopped]; try (split; [reflexivity | reflexivity]).
  - split; [intros c; apply insert_insert_eq | reflexivity].
  - inversion Hf; subst; cbn [fs stdout tick stopped lose append set_fs];
      (split; [intros c; rewrite ?insert_insert_eq; reflexivity | reflexivity]).
  - split; [intros c; apply insert_insert_eq|]. exists texts. split; [assumption | reflexivity].
Qed.

End HeaderedFailing.

(** *** extract_prd_pages.py *)

Section PerPageStops.

Variable env : Env.

Lemma extract_prd_pages_stops w reader pre x post texts e :
  quiet env (syscalls w) (1 + 2 * length texts + 1) ->
  open_pdf env WORKDIR PDF_NAME = Returned reader ->
  pages reader = pre ++ x :: post ->
  texts_of pre texts -> all_encodable texts ->
  (forall w1, (text ← extract_text x; write env (opened (page_path env (N.of_nat (length texts) + 1)) utf_8_sig) text) w1
              = (w1, Raised e)) ->
  extract_prd_pages env w = (stopped_pages env texts w, Raised e).
Proof.
  intros Hq Hpdf Hpages Htx Henc Hx.
  rewrite (extract_prd_pages_start env w reader (pre ++ x :: post))
    by first [assumption | apply Hq; lia | apply pages_listed, Hpages].
  pose proof (texts_of_length _ _ Htx) as Hlen.
  unfold enumerate. rewrite enumerate_from_app. cbn [enumerate_from].
  rewrite for_each_app, (extract_prd_pages_loop env pre 0 texts);
    [| assumption | assumption | intros k Hk; apply Hq; simpl in Hk; lia].
  cbn [for_each]. rewrite run_bind. unfold extract_prd_pages_page.
  rewrite run_bind, with_open_ok by (apply Hq; simpl; lia).
  rewrite Hlen, N.add_0_l. unfold opened in Hx. rewrite Hx. f_equal.
  apply World_eq; cbn [fs cwd stdout syscalls set_fs tick stopped_pages]; try reflexivity.
  lia.
Qed.

End PerPageStops.

Section PerPageFailing.

Variable env : Env.

Lemma extract_prd_pages_page_fails_run i page w0 w' e :
  extract_prd_pages_page_fails env i page w0 w' e ->
  extract_prd_pages_page env (i, page) tt w0 = (w', Raised e).
Proof.
  intros H. unfold extract_prd_pages_page. rewrite run_bind.
  destruct H as [Hw | e Hw Ht | t Hw Ht Henc | t Hw Ht Henc Hw1].
  - rewrite with_open_fault by assumption. reflexivity.
  - rewrite with_open_ok by assumption.
    unfold extract_text, lift. rewrite run_bind, Ht. reflexivity.
  - rewrite with_open_ok by assumption.
    unfold extract_text, lift. rewrite run_bind, Ht.
    rewrite write_unencodable by assumption. reflexivity.
  - rewrite with_open_ok by assumption.
    unfold extract_text, lift. rewrite run_bind, Ht.
    rewrite write_fault by assumption. reflexivity.
Qed.

Lemma extract_prd_pages_page_fails_total i page w0 :
  ~ page_passes env 2 (syscalls w0) page ->
  exists w' e, extract_prd_pages_page_fails env i page w0 w' e.
Proof.
  intros Hn. destruct (io_fault env (syscalls w0)) eqn:Hw.
  { eexists _, _. apply extract_prd_pages_no_file, Hw. }
  destruct (extract_text_result page) as [t|e] eqn:Ht.
  2:{ eexists _, _. eapply extract_prd_pages_no_text; eassumption. }
  destruct (forallb encodable t) eqn:Henc.
  2:{ eexists _, _. eapply extract_prd_pages_no_encoding; eassumption. }
  destruct (io_fault env (S (syscalls w0))) eqn:Hw1.
  { eexists _, _. eapply extract_prd_pages_no_write; eassumption. }
  exfalso. apply Hn. exists t. split; [assumption|]. split; [assumption|].
  apply quiet_two; assumption.
Qed.

(** The third script stops at the first page that fails, in the world
    that this page leaves. *)
Lemma extract_prd_pages_stops_at w reader pre x post texts w' e :
  quiet env (syscalls w) (1 + 2 * length texts) ->
  open_pdf env WORKDIR PDF_NAME = Returned reader ->
  pages_result reader = Returned (pre ++ x :: post) ->
  texts_of pre texts -> all_encodable texts ->
  extract_prd_pages_page env (N.of_nat (length texts), x) tt (pages_done env texts w)
  = (w', Raised e) ->
  extract_prd_pages env w = (w', Raised e).
Proof.
  intros Hq Hpdf Hl Htx Henc Hx.
  rewrite (extract_prd_pages_start env w reader _) by (try eassumption; apply Hq; lia).
  pose proof (texts_of_length _ _ Htx) as Hlen.
  unfold enumerate. rewrite enumerate_from_app. cbn [enumerate_from].
  rewrite for_each_app, (extract_prd_pages_loop env pre 0 texts);
    [| assumption | assumption | intros k Hk; apply Hq; simpl in Hk; lia].
  cbn [for_each]. rewrite run_bind, Hlen, N.add_0_l.
  replace {| fs := _; cwd := _; stdout := _; syscalls := _ |}
    with (pages_done env texts w).
  - rewrite Hx. reflexivity.
  - apply World_eq; cbn [fs cwd stdout syscalls pages_done]; try reflexivity. lia.
Qed.

(** Every run of the third script ends in one of the ways of
    [extract_prd_pages_ends]. *)
Lemma extract_prd_pages_run_ends w :
  extract_prd_pages_ends env w (extract_prd_pages env w).
Proof.
  destruct (io_fault env (syscalls w)) eqn:H0.
  { replace (extract_prd_pages env w) with (tick w, Raised OSError : Outcome unit).
    - apply extract_prd_pages_ends_chdir, H0.
    - unfold extract_prd_pages. rewrite run_bind, os_chdir_fault by assumption.
      reflexivity. }
  destruct (open_pdf env WORKDIR PDF_NAME) as [reader|e] eqn:Hpdf.
  2:{ replace (extract_prd_pages env w) with (in_workdir w, Raised e : Outcome unit).
      - apply extract_prd_pages_ends_pdf; assumption.
      - unfold extract_prd_pages. rewrite run_bind, os_chdir_ok by assumption.
        rewrite run_bind, PyPDF2_PdfReader_run. cbn [cwd]. rewrite Hpdf. reflexivity. }
  destruct (pages_result reader) as [pgs|e] eqn:Hl.
  2:{ replace (extract_prd_pages env w) with (in_workdir w, Raised e : Outcome unit).
      - eapply extract_prd_pages_ends_listing; eassumption.
      - unfold extract_prd_pages. rewrite run_bind, os_chdir_ok by assumption.
        rewrite run_bind, PyPDF2_PdfReader_run. cbn [cwd]. rewrite Hpdf.
        rewrite run_bind, reader_pages_run, Hl. reflexivity. }
  pose proof (pages_of_listing _ _ Hl) as Hpages.
  assert (Hq1 : quiet env (syscalls w) 1)
    by (intros k Hk; replace k with (syscalls w) by lia; assumption).
  destruct (pages_split env 2 pgs (S (syscalls w)))
    as [(texts & Htx & Hall & Hq) | (pre & page & post & texts & -> & Htx & Hall & Hq & Hn)].
  - assert (Hqa : quiet env (syscalls w) (1 + 2 * length texts)).
    { apply quiet_app; [assumption|].
      replace (syscalls w + 1)%nat with (S (syscalls w)) by lia. assumption. }
    rewrite (extract_prd_pages_run env w reader texts); try assumption;
      [| rewrite Hpages; assumption | rewrite Hpages; assumption].
    apply extract_prd_pages_ends_done. split; [assumption|]. exists reader.
    rewrite Hpages. auto.
  - assert (Hqa : quiet env (syscalls w) (1 + 2 * length texts)).
    { apply quiet_app; [assumption|].
      replace (syscalls w + 1)%nat with (S (syscalls w)) by lia. assumption. }
    destruct (extract_prd_pages_page_fails_total (N.of_nat (length texts)) page
                (pages_done env texts w)) as (w' & e & Hfail).
    { cbn [pages_done syscalls].
      replace (syscalls w + 1 + 2 * length texts)%nat
        with (S (syscalls w) + 2 * length texts)%nat by lia.
      exact Hn. }
    rewrite (extract_prd_pages_stops_at w reader pre page post texts w' e); try assumption.
    + eapply extract_prd_pages_ends_page; eassumption.
    + apply extract_prd_pages_page_fails_run, Hfail.
Qed.

Lemma page_paths_mono k n p :
  (k <= n)%nat -> p ∈ page_paths env k -> p ∈ page_paths env n.
Proof.
  intros Hk Hp. apply elem_of_page_paths in Hp as (j & Hj & ->).
  apply elem_of_page_paths. exists j. split; [lia | reflexivity].
Qed.

(** Whatever a run of the third script does, it does to page files of
    the document. *)
Lemma extract_prd_pages_untouched w reader p :
  open_pdf env WORKDIR PDF_NAME = Returned reader ->
  p ∉ page_paths env (length (pages reader)) ->
  fs (fst (extract_prd_pages env w)) !! p = fs w !! p.
Proof.
  intros Hpdf Hp. pose proof (extract_prd_pages_run_ends w) as H.
  destruct (extract_prd_pages env w) as [w' r]. cbn [fst].
  inversion H as [ | | | reader' pre page post texts w1 e1 Hq Hpdf' Hl Htx Hall Hf
                   | texts Hok]; subst; try reflexivity.
  - rewrite Hpdf in Hpdf'. injection Hpdf' as <-.
    rewrite (pages_of_listing _ _ Hl), length_app in Hp. cbn [length] in Hp.
    pose proof (texts_of_length _ _ Htx) as Hlen.
    assert (Hp' : p ∉ page_paths env (length texts)).
    { intros Hin. apply Hp. eapply page_paths_mono; [|exact Hin]. lia. }
    assert (Hne : page_path env (N.of_nat (length texts) + 1) <> p).
    { intros <-. apply Hp, elem_of_page_paths. exists (length texts).
      split; [lia | reflexivity]. }
    inversion Hf; subst; cbn [fs tick set_fs lose pages_done];
      rewrite ?lookup_insert_ne by assumption; apply page_files_frame_0, Hp'.
  - destruct Hok as (_ & reader' & Hpdf' & Htx & _).
    rewrite Hpdf in Hpdf'. injection Hpdf' as <-. cbn [fs].
    apply page_files_frame_0. rewrite <- (texts_of_length _ _ Htx). exact Hp.
Qed.

End PerPageFailing.

(** ** Counting what was written *)

Lemma no_marker_sum texts :
  Forall (fun t => occurrences MARKER t = 0%nat) texts ->
  sum_list (map (occurrences MARKER) texts) = 0%nat.
Proof. induction 1 as [|t ts Ht _ IH]; simpl; [reflexivity | rewrite Ht, IH; reflexivity]. Qed.

Lemma no_header_numbers texts : forall i,
  Forall (fun t => headers t = []) texts ->
  concat (map (fun '(i, t) => format_int (i + 1) :: headers t) (enumerate_from i texts))
  = map (fun k => format_int (i + N.of_nat k + 1)) (seq 0 (length texts)).
Proof.
  induction texts as [|t ts IH]; intros i Hts; [reflexivity|].
  apply Forall_cons in Hts as [Ht Hts].
  cbn [enumerate_from map concat length seq]. rewrite Ht, IH by assumption.
  rewrite <- seq_shift, map_map. cbn [app]. f_equal; [f_equal; lia|].
  apply map_ext. intros k. f_equal. lia.
Qed.

Lemma headers_headered_numbers texts :
  Forall (fun t => headers t = []) texts ->
  headers (headered texts) = map format_int (page_numbers (length texts)).
Proof.
  intros Hts. rewrite headers_headered. unfold enumerate.
  rewrite no_header_numbers by assumption. unfold page_numbers. rewrite map_map.
  reflexivity.
Qed.

Lemma page_numbers_sorted n : StronglySorted N.lt (page_numbers n).
Proof.
  unfold page_numbers. generalize 0%nat as a.
  induction n as [|n IH]; intros a; simpl; constructor; [apply IH|].
  apply Forall_forall. intros x Hx. apply list_elem_of_fmap in Hx as (k & -> & Hk).
  apply elem_of_seq in Hk. lia.
Qed.

(** ** Sample documents run without failure *)

Lemma texts_of_document texts : texts_of (pages (document texts)) texts.
Proof. unfold texts_of, document, pages. simpl. rewrite map_map. reflexivity. Qed.

Lemma sample_nothing_fails os texts w n :
  all_encodable texts -> nothing_fails (sample_env os texts) w n texts.
Proof.
  intros H. split; [intros k _; reflexivity|].
  exists (document texts). split; [reflexivity|]. split; [apply texts_of_document|].
  split; [assumption | reflexivity].
Qed.

Lemma nothing_fails_le env w n m texts :
  (m <= n)%nat -> nothing_fails env w n texts -> nothing_fails env w m texts.
Proof. intros Hm [Hq H]. split; [eapply quiet_le; eassumption | assumption]. Qed.

Lemma no_faults_quiet env a n : no_faults env -> quiet env a n.
Proof. intros H k _. apply H. Qed.

Lemma always_nothing_fails env texts w n :
  always_succeeds env texts -> nothing_fails env w n texts.
Proof. intros [Hq H]. split; [apply no_faults_quiet, Hq | assumption]. Qed.

Lemma extract_prd_fs env w texts :
  nothing_fails env w (2 + length texts) texts ->
  extract_prd env w
  = ({| fs := <[PRD_FULL := encode_text (os_name env) (concatenated texts)]> (fs w);
        cwd := WORKDIR; stdout := stdout w ++ [lit "Done"];
        syscalls := (syscalls w + 2 + length texts)%nat |},
     Returned tt).
Proof. intros (Hq & reader & Hpdf & Htx & Henc & Hl). eapply extract_prd_run; eassumption. Qed.

Lemma extract_prd2_fs env w texts :
  nothing_fails env w (2 + 2 * length texts) texts ->
  extract_prd2 env w
  = ({| fs := <[output_path := encode_text (os_name env) (headered texts)]> (fs w);
        cwd := WORKDIR; stdout := stdout w ++ [extracted_line (length texts)];
        syscalls := (syscalls w + 2 + 2 * length texts)%nat |},
     Returned tt).
Proof. intros (Hq & reader & Hpdf & Htx & Henc & Hl). eapply extract_prd2_run; eassumption. Qed.

Lemma extract_prd_pages_fs env w texts :
  nothing_fails env w (1 + 2 * length texts) texts ->
  extract_prd_pages env w
  = ({| fs := page_files env 0 texts (fs w);
        cwd := WORKDIR;
        stdout := stdout w ++ page_lines (os_name env) 0 texts ++ [lit "Done"];
        syscalls := (syscalls w + 1 + 2 * length texts)%nat |},
     Returned tt).
Proof. intros (Hq & reader & Hpdf & Htx & Henc & Hl). eapply extract_prd_pages_run; eassumption. Qed.

Lemma headered_explicit texts :
  headered texts
  = concat (map (fun '(i, t) => [LF] ++ lit "=== PAGE " ++ format_int (i + 1)
                                ++ lit " ===" ++ [LF] ++ t) (enumerate texts)).
Proof.
  unfold headered. f_equal. apply map_ext. intros [i t].
  unfold page_header, HEADER. rewrite <- !app_assoc. reflexivity.
Qed.

(** * The claims *)

(** ** Variant A: one file, a marker after every page *)

(** C1, counterexample.  The specification counts one marker less than
    there are pages.  The first script writes the marker after every page,
    the last one included: the file of a one-page document whose text is
    [Intro] holds one marker, not none. *)
Lemma marker_count_of_one_page :
  let texts := [lit "Intro"] in
  Forall (fun t => occurrences MARKER t = 0%nat) texts /\
  exists out,
    fs (fst (extract_prd (sample_env posix texts) empty_world)) !! PRD_FULL = Some out /\
    occurrences MARKER out <> (length texts - 1)%nat.
Proof.
  split; [repeat constructor|].
  eexists. split; [vm_compute; reflexivity|]. vm_compute. discriminate.
Qed.

(** C1, amended.  When a run over an N-page document completes and no
    page text contains the marker, the output file of the first script
    contains exactly N occurrences of [---PAGE BREAK---]. *)
Theorem extract_prd_marker_count env w texts :
  nothing_fails env w (2 + length texts) texts ->
  Forall (fun t => occurrences MARKER t = 0%nat) texts ->
  exists out,
    fs (fst (extract_prd env w)) !! PRD_FULL = Some out /\
    occurrences MARKER out = length texts.
Proof.
  intros Hok Hno. rewrite (extract_prd_fs env w texts) by assumption. cbn [fst fs].
  eexists. split; [apply lookup_insert_eq|].
  rewrite occurrences_encode, occurrences_concatenated, no_marker_sum by assumption.
  lia.
Qed.

Lemma extract_prd_marker_count_witness :
  exists out,
    fs (fst (extract_prd (sample_env nt example_texts) empty_world)) !! PRD_FULL = Some out /\
    occurrences MARKER out = 3%nat.
Proof.
  apply (extract_prd_marker_count (sample_env nt example_texts) empty_world example_texts).
  - split; [intros k _; reflexivity|].
    exists (document example_texts).
    split; [reflexivity|]. split; [reflexivity|]. repeat constructor.
  - repeat constructor.
Defined.

(** C2.  When a run completes, the output file of the first script is,
    as a UTF-8 text file, exactly the texts of the pages in page order,
    each followed by a blank line, the marker line and another blank
    line; whatever was at the destination before is replaced. *)
Theorem extract_prd_writes_concatenation env w texts :
  nothing_fails env w (2 + length texts) texts ->
  snd (extract_prd env w) = Returned tt /\
  fs (fst (extract_prd env w))
  = <[PRD_FULL :=
        encode_text (os_name env)
          (concat (map (fun t => t ++ [LF; LF] ++ lit "---PAGE BREAK---" ++ [LF; LF])
                       texts))]> (fs w).
Proof.
  intros Hok. rewrite (extract_prd_fs env w texts) by assumption. split; reflexivity.
Qed.

Lemma extract_prd_writes_concatenation_witness :
  fs (fst (extract_prd (sample_env posix example_texts) empty_world)) !! PRD_FULL
  = Some (lit "Intro" ++ [LF; LF] ++ lit "---PAGE BREAK---" ++ [LF; LF]
          ++ lit "Body" ++ [LF; LF] ++ lit "---PAGE BREAK---" ++ [LF; LF]
          ++ lit "End" ++ [LF; LF] ++ lit "---PAGE BREAK---" ++ [LF; LF]).
Proof.
  destruct (extract_prd_writes_concatenation (sample_env posix example_texts)
              empty_world example_texts) as [_ ->].
  - split; [intros k _; reflexivity|].
    exists (document example_texts).
    split; [reflexivity|]. split; [reflexivity|]. repeat constructor.
  - vm_compute. reflexivity.
Defined.

(** ** Variant B: one file, a header before every page *)

(** C3.  When a run completes, the output file of the second script is,
    as a UTF-8 text file, exactly the texts of the pages in page order,
    each preceded by a line feed, the header with the page number counted
    from one, and a line feed, with nothing after the last text.  If no
    page text contains a header, the headers found in the file are those
    of the pages 1 to N, once each and in ascending order. *)
Theorem extract_prd2_writes_headers env w texts :
  nothing_fails env w (2 + 2 * length texts) texts ->
  snd (extract_prd2 env w) = Returned tt /\
  fs (fst (extract_prd2 env w))
  = <[output_path :=
        encode_text (os_name env)
          (concat (map (fun '(i, t) => [LF] ++ lit "=== PAGE " ++ format_int (i + 1)
                                       ++ lit " ===" ++ [LF] ++ t)
                       (enumerate texts)))]> (fs w) /\
  (Forall (fun t => headers t = []) texts ->
   exists out,
     fs (fst (extract_prd2 env w)) !! output_path = Some out /\
     headers out = map format_int (page_numbers (length texts)) /\
     StronglySorted N.lt (page_numbers (length texts))).
Proof.
  intros Hok. rewrite (extract_prd2_fs env w texts) by assumption. cbn [fst snd fs].
  split; [reflexivity|]. split; [rewrite headered_explicit; reflexivity|].
  intros Hno. eexists. split; [apply lookup_insert_eq|].
  split; [|apply page_numbers_sorted].
  rewrite headers_encode. apply headers_headered_numbers, Hno.
Qed.

Lemma extract_prd2_writes_headers_witness :
  fs (fst (extract_prd2 (sample_env posix example_texts) empty_world)) !! output_path
  = Some ([LF] ++ lit "=== PAGE 1 ===" ++ [LF] ++ lit "Intro"
          ++ [LF] ++ lit "=== PAGE 2 ===" ++ [LF] ++ lit "Body"
          ++ [LF] ++ lit "=== PAGE 3 ===" ++ [LF] ++ lit "End").
Proof.
  destruct (extract_prd2_writes_headers (sample_env posix example_texts)
              empty_world example_texts) as (_ & -> & _).
  - split; [intros k _; reflexivity|].
    exists (document example_texts).
    split; [reflexivity|]. split; [reflexivity|]. repeat constructor.
  - vm_compute. reflexivity.
Defined.

(** ** Variant C: one file per page *)

(** C4.  When a run over an N-page document completes, the third script
    has written N different files, [prd_page_<n>.md] in the output
    directory for the page numbers n from 1 to N; the file of page n
    holds the byte-order mark followed by the UTF-8 text of that page and
    nothing else, and no other file has been created or changed. *)
Theorem extract_prd_pages_writes_page_files env w texts :
  nothing_fails env w (1 + 2 * length texts) texts ->
  snd (extract_prd_pages env w) = Returned tt /\
  (forall k t, texts !! k = Some t ->
     fs (fst (extract_prd_pages env w)) !! page_path env (N.of_nat k + 1)
     = Some (BOM_UTF8 ++ encode_text (os_name env) t)) /\
  (forall n, page_path env n
             = outdir ++ sep (os_name env) :: lit "prd_page_" ++ format_int n ++ lit ".md") /\
  NoDup (page_paths env (length texts)) /\
  length (page_paths env (length texts)) = length texts /\
  dom (fs (fst (extract_prd_pages env w)))
  = dom (fs w) ∪ list_to_set (page_paths env (length texts)) /\
  (forall p, p ∉ page_paths env (length texts) ->
     fs (fst (extract_prd_pages env w)) !! p = fs w !! p).
Proof.
  intros Hok. rewrite (extract_prd_pages_fs env w texts) by assumption. cbn [fst snd fs].
  split; [reflexivity|].
  split; [intros k t Hk; apply (page_files_lookup env texts 0 (fs w) k t Hk)|].
  split; [apply page_path_eq|].
  split; [apply page_paths_NoDup|].
  split; [apply page_paths_length|].
  split; [apply page_files_dom_0|].
  intros p Hp. apply page_files_frame_0, Hp.
Qed.

Lemma extract_prd_pages_writes_page_files_witness :
  fs (fst (extract_prd_pages (sample_env nt example_texts) empty_world))
    !! (lit "c:\Users\Bill\Desktop\Vexium Verse\vexium-verse\prd_page_2.md")
  = Some ([0xEF; 0xBB; 0xBF] ++ lit "Body").
Proof.
  destruct (extract_prd_pages_writes_page_files (sample_env nt example_texts)
              empty_world example_texts) as (_ & H & _).
  - split; [intros k _; reflexivity|].
    exists (document example_texts).
    split; [reflexivity|]. split; [reflexivity|]. repeat constructor.
  - exact (H 1%nat (lit "Body") eq_refl).
Defined.

(** ** All variants: as many artifacts as pages *)

(** C5, counterexample.  Nothing keeps a page text from containing the
    marker itself: the file the first script writes for the one-page
    document whose text is the marker contains the marker twice. *)
Lemma marker_count_with_marker_in_text :
  let texts := [MARKER] in
  snd (extract_prd (sample_env posix texts) empty_world) = Returned tt /\
  exists out,
    fs (fst (extract_prd (sample_env posix texts) empty_world)) !! PRD_FULL = Some out /\
    occurrences MARKER out = 2%nat /\
    occurrences MARKER out <> length texts.
Proof.
  split; [vm_compute; reflexivity|].
  eexists. split; [vm_compute; reflexivity|].
  split; [vm_compute; reflexivity | vm_compute; discriminate].
Qed.

(** C5, amended.  When the runs over an N-page document complete: the
    file of the first script holds the page texts in page order, each
    with its marker, and N markers if no page text contains one; the file
    of the second script holds the page texts in page order, each after
    its header, and the headers of the pages 1 to N in this order if no
    page text contains one; the third script writes N different files,
    the file of page n holding the text of page n. *)
Theorem artifacts_match_pages env w texts :
  always_succeeds env texts ->
  (exists out,
     fs (fst (extract_prd env w)) !! PRD_FULL = Some out /\
     out = encode_text (os_name env) (concatenated texts) /\
     (Forall (fun t => occurrences MARKER t = 0%nat) texts ->
      occurrences MARKER out = length texts)) /\
  (exists out,
     fs (fst (extract_prd2 env w)) !! output_path = Some out /\
     out = encode_text (os_name env) (headered texts) /\
     (Forall (fun t => headers t = []) texts ->
      headers out = map format_int (page_numbers (length texts)))) /\
  (length (page_paths env (length texts)) = length texts /\
   NoDup (page_paths env (length texts)) /\
   dom (fs (fst (extract_prd_pages env w)))
   = dom (fs w) ∪ list_to_set (page_paths env (length texts)) /\
   forall k t, texts !! k = Some t ->
     fs (fst (extract_prd_pages env w)) !! page_path env (N.of_nat k + 1)
     = Some (page_content (os_name env) t)).
Proof.
  intros Hok.
  rewrite (extract_prd_fs env w texts), (extract_prd2_fs env w texts),
    (extract_prd_pages_fs env w texts) by (apply always_nothing_fails, Hok).
  cbn [fst fs]. split; [|split].
  - eexists. split; [apply lookup_insert_eq|]. split; [reflexivity|].
    intros Hno.
    rewrite occurrences_encode, occurrences_concatenated, no_marker_sum by assumption.
    lia.
  - eexists. split; [apply lookup_insert_eq|]. split; [reflexivity|].
    intros Hno. rewrite headers_encode. apply headers_headered_numbers, Hno.
  - split; [apply page_paths_length|]. split; [apply page_paths_NoDup|].
    split; [apply page_files_dom_0|].
    intros k t Hk. apply (page_files_lookup env texts 0 (fs w) k t Hk).
Qed.

Lemma artifacts_match_pages_witness :
  exists out,
    fs (fst (extract_prd (sample_env nt example_texts) empty_world)) !! PRD_FULL = Some out /\
    out = encode_text nt (concatenated example_texts) /\
    (Forall (fun t => occurrences MARKER t = 0%nat) example_texts ->
     occurrences MARKER out = 3%nat).
Proof.
  apply (artifacts_match_pages (sample_env nt example_texts) empty_world example_texts).
  split; [intros k; reflexivity|].
  exists (document example_texts).
  split; [reflexivity|]. split; [reflexivity|]. repeat constructor.
Defined.

(** ** Documents without pages, pages without text *)

(** C6, counterexample.  The file the third script writes for a page
    without text is not empty: the [utf-8-sig] encoder puts the
    byte-order mark before the first text it is given, the empty one
    included, and the script reports a file of three octets. *)
Lemma file_of_empty_page_not_empty :
  let env := sample_env posix [[]] in
  fs (fst (extract_prd_pages env empty_world)) !! page_path env 1 = Some [0xEF; 0xBB; 0xBF] /\
  fs (fst (extract_prd_pages env empty_world)) !! page_path env 1 <> Some [] /\
  stdout (fst (extract_prd_pages env empty_world)) = [lit "Page 1: 3 bytes"; lit "Done"].
Proof.
  split; [vm_compute; reflexivity|].
  split; [vm_compute; discriminate | vm_compute; reflexivity].
Qed.

(** C6, amended.  When nothing else fails: for a document without pages
    the first two scripts leave an empty output file and the third
    changes no file; pages without text make no run fail, and the file
    the third script writes for such a page holds the byte-order mark and
    nothing else. *)
Theorem empty_documents_and_pages env w texts :
  always_succeeds env texts ->
  (texts = [] ->
   fs (fst (extract_prd env w)) !! PRD_FULL = Some [] /\
   fs (fst (extract_prd2 env w)) !! output_path = Some [] /\
   fs (fst (extract_prd_pages env w)) = fs w) /\
  (snd (extract_prd env w) = Returned tt /\
   snd (extract_prd2 env w) = Returned tt /\
   snd (extract_prd_pages env w) = Returned tt) /\
  (forall k, texts !! k = Some [] ->
     fs (fst (extract_prd_pages env w)) !! page_path env (N.of_nat k + 1) = Some BOM_UTF8).
Proof.
  intros Hok.
  rewrite (extract_prd_fs env w texts), (extract_prd2_fs env w texts),
    (extract_prd_pages_fs env w texts) by (apply always_nothing_fails, Hok).
  cbn [fst snd fs]. split; [|split; [auto|]].
  - intros ->. split; [apply lookup_insert_eq|]. split; [apply lookup_insert_eq | reflexivity].
  - intros k Hk. apply (page_files_lookup env texts 0 (fs w) k [] Hk).
Qed.

Lemma empty_documents_and_pages_witness :
  fs (fst (extract_prd_pages (sample_env nt [lit "Intro"; []]) empty_world))
    !! page_path (sample_env nt [lit "Intro"; []]) 2 = Some BOM_UTF8.
Proof.
  destruct (empty_documents_and_pages (sample_env nt [lit "Intro"; []]) empty_world
              [lit "Intro"; []]) as (_ & _ & H).
  - split; [intros k; reflexivity|].
    exists (document [lit "Intro"; []]).
    split; [reflexivity|]. split; [reflexivity|]. repeat constructor.
  - exact (H 1%nat eq_refl).
Defined.

(** ** Running a script again *)

(** C7.  When the extraction yields the same texts and nothing fails, a
    second run of a script over the result of the first leaves every file
    with the octets it had after the first. *)
Theorem rerun_is_identical env w texts :
  always_succeeds env texts ->
  fs (fst (extract_prd env (fst (extract_prd env w)))) = fs (fst (extract_prd env w)) /\
  fs (fst (extract_prd2 env (fst (extract_prd2 env w)))) = fs (fst (extract_prd2 env w)) /\
  fs (fst (extract_prd_pages env (fst (extract_prd_pages env w))))
  = fs (fst (extract_prd_pages env w)).
Proof.
  intros Hok.
  rewrite !(extract_prd_fs env _ texts), !(extract_prd2_fs env _ texts),
    !(extract_prd_pages_fs env _ texts) by (apply always_nothing_fails, Hok).
  cbn [fst fs]. split; [apply insert_insert_eq|].
  split; [apply insert_insert_eq | apply page_files_idemp].
Qed.

Lemma rerun_is_identical_witness :
  let env := sample_env nt example_texts in
  fs (fst (extract_prd_pages env (fst (extract_prd_pages env empty_world))))
  = fs (fst (extract_prd_pages env empty_world)).
Proof.
  apply (rerun_is_identical (sample_env nt example_texts) empty_world example_texts).
  split; [intros k; reflexivity|].
  exists (document example_texts).
  split; [reflexivity|]. split; [reflexivity|]. repeat constructor.
Defined.

(** ** Failures *)

(** C8, counterexample.  A page that was written need not be on the
    disk when a later write fails.  The file object buffers what it is
    given; the text of the first page is short and stays in the buffer,
    the text of the second is long enough for its write to go to the file
    system.  When the file system then takes no octet, call 3, the write
    for the second page, raises [OSError] after call 2, the write for the
    first page, has returned; the script ends, and the output file is
    empty: of the first page nothing is there. *)
Lemma written_page_lost :
  let texts := [lit "Intro"; repeat 66 (N.to_nat 10000); lit "End"] in
  let env := lossy_env posix (document texts) [3%nat] 0 in
  io_fault env 2 = false /\
  io_fault env 3 = true /\
  extract_prd env empty_world
  = ({| fs := {[PRD_FULL := []]}; cwd := WORKDIR; stdout := []; syscalls := 4 |},
     Raised OSError) /\
  fs (fst (extract_prd env empty_world)) !! PRD_FULL
  <> Some (encode_text posix (lit "Intro" ++ PAGE_BREAK)).
Proof.
  split; [reflexivity|].
  split; [reflexivity|].
  assert (E : extract_prd
                (lossy_env posix (document [lit "Intro"; repeat 66 (N.to_nat 10000); lit "End"])
                   [3%nat] 0) empty_world
              = ({| fs := {[PRD_FULL := []]}; cwd := WORKDIR; stdout := [];
                    syscalls := 4 |}, Raised OSError))
    by (vm_compute; reflexivity).
  split; [exact E|]. cbv zeta. rewrite E. cbn [fst fs].
  rewrite lookup_singleton_eq. discriminate.
Qed.

(** C8, amended.  No script handles an exception: a run ends with the
    exception of the first operation that fails, be it the change of
    directory, the opening of the PDF or of an output file, the listing
    of the pages, the extraction or the encoding of a page text, or a
    write, and it ends there, without the closing message.  Nothing is
    undone.  When the text of page k + 1 cannot be extracted or encoded,
    the file of the first script holds exactly the k pages before, the
    file of the second holds them and, if the text could not be encoded,
    the header of page k + 1, and the third script leaves the k page
    files and the file of page k + 1, opened and empty.  When a write
    fails, the file written to holds a prefix of what the script has
    handed to it, as long as the disk has taken it: pages written before
    need not all be there.  A run returns only when nothing fails. *)
Theorem failures_abort_the_run env w :
  extract_prd_ends env w (extract_prd env w) /\
  extract_prd2_ends env w (extract_prd2 env w) /\
  extract_prd_pages_ends env w (extract_prd_pages env w).
Proof.
  split; [apply extract_prd_run_ends|].
  split; [apply extract_prd2_run_ends | apply extract_prd_pages_run_ends].
Qed.

(** A page that cannot be extracted stops the first script after the
    first page, and the third with the file of the second page opened. *)
Example extraction_failure_on_second_page :
  let env := faulty_env posix broken_document [] in
  snd (extract_prd env empty_world) = Raised PdfReadError /\
  fs (fst (extract_prd env empty_world)) !! PRD_FULL = Some (lit "Intro" ++ PAGE_BREAK) /\
  stdout (fst (extract_prd env empty_world)) = [] /\
  snd (extract_prd_pages env empty_world) = Raised PdfReadError /\
  fs (fst (extract_prd_pages env empty_world)) !! page_path env 1
  = Some (BOM_UTF8 ++ lit "Intro") /\
  fs (fst (extract_prd_pages env empty_world)) !! page_path env 2 = Some [] /\
  fs (fst (extract_prd_pages env empty_world)) !! page_path env 3 = None /\
  stdout (fst (extract_prd_pages env empty_world)) = [lit "Page 1: 8 bytes"].
Proof. repeat split; vm_compute; reflexivity. Qed.

(** Counted from zero, call 5 of the second script is the write of the
    text of its second page.  When it fails with thirty octets on the
    disk, the file ends in the middle of the header of that page. *)
Example write_failure_on_second_page :
  let env := lossy_env posix (document example_texts) [5%nat] 30 in
  snd (extract_prd2 env empty_world) = Raised OSError /\
  fs (fst (extract_prd2 env empty_world)) !! output_path
  = Some (page_header 1 ++ lit "Intro" ++ [LF] ++ lit "=== PAGE") /\
  stdout (fst (extract_prd2 env empty_world)) = [].
Proof. repeat split; vm_compute; reflexivity. Qed.

(** A document whose pages cannot be listed: the first script has cut
    its output file to length zero by then, the third has opened no
    file. *)
Example listing_failure :
  let env := faulty_env nt locked_document [] in
  let w := {| fs := {[PRD_FULL := lit "earlier output"]}; cwd := []; stdout := [];
              syscalls := 0 |} in
  snd (extract_prd env w) = Raised PdfReadError /\
  fs (fst (extract_prd env w)) !! PRD_FULL = Some [] /\
  snd (extract_prd_pages env w) = Raised PdfReadError /\
  fs (fst (extract_prd_pages env w)) = fs w.
Proof. repeat split; vm_compute; reflexivity. Qed.

(** ** What the third script leaves alone *)

(** C9.  Whatever happens in a run of the third script over an N-page
    document, a file that is none of [prd_page_1.md] to [prd_page_N.md]
    in the output directory is afterwards what it was before, and absent
    if it was absent; this holds of a page file with a number above N,
    left by an earlier run. *)
Theorem extract_prd_pages_frame env w reader :
  open_pdf env WORKDIR PDF_NAME = Returned reader ->
  (forall p, p ∉ page_paths env (length (pages reader)) ->
     fs (fst (extract_prd_pages env w)) !! p = fs w !! p) /\
  (forall m, N.of_nat (length (pages reader)) < m ->
     fs (fst (extract_prd_pages env w)) !! page_path env m = fs w !! page_path env m).
Proof.
  intros Hpdf.
  assert (Hframe : forall p, p ∉ page_paths env (length (pages reader)) ->
            fs (fst (extract_prd_pages env w)) !! p = fs w !! p)
    by (intros p; apply extract_prd_pages_untouched, Hpdf).
  split; [exact Hframe|].
  intros m Hm. apply Hframe. intros Hin.
  apply elem_of_page_paths in Hin as (k & Hk & E). apply page_path_inj in E. lia.
Qed.

Lemma extract_prd_pages_frame_witness :
  let env := sample_env nt example_texts in
  let w := {| fs := {[page_path env 7 := lit "stale"]}; cwd := []; stdout := []; syscalls := 0 |} in
  fs (fst (extract_prd_pages env w)) !! page_path env 7 = Some (lit "stale").
Proof.
  intros env w.
  destruct (extract_prd_pages_frame env w (document example_texts) eq_refl) as [_ H].
  rewrite (H 7); [apply lookup_singleton_eq | reflexivity].
Defined.

(** ** Page boundaries in the output of variant A *)

(** C10.  Two different documents can give the first script the same
    output file: a page whose text contains a blank line, the marker
    line and a blank line is written as the two pages it seems to be. *)
Theorem concatenation_not_injective :
  exists texts1 texts2,
    texts1 <> texts2 /\
    forall os w,
      snd (extract_prd (sample_env os texts1) w) = Returned tt /\
      snd (extract_prd (sample_env os texts2) w) = Returned tt /\
      fs (fst (extract_prd (sample_env os texts1) w))
      = fs (fst (extract_prd (sample_env os texts2) w)).
Proof.
  exists [lit "a" ++ PAGE_BREAK ++ lit "b"], [lit "a"; lit "b"].
  split; [discriminate|]. intros os w.
  rewrite (extract_prd_fs (sample_env os [lit "a" ++ PAGE_BREAK ++ lit "b"]) w
             [lit "a" ++ PAGE_BREAK ++ lit "b"])
    by (apply sample_nothing_fails; repeat constructor).
  rewrite (extract_prd_fs (sample_env os [lit "a"; lit "b"]) w [lit "a"; lit "b"])
    by (apply sample_nothing_fails; repeat constructor).
  split; [reflexivity|]. split; reflexivity.
Qed.

(** * Further properties of the scripts *)

(** ** extract_prd.py: the run stops at the page that fails *)


(** X1.  When [extract_text] raises on page k + 1, the first script ends
    with that very exception; its file holds the k pages before, each with
    its marker, and nothing else; nothing is printed, and the pages after
    are never looked at. *)
Theorem extract_prd_extraction_failure env w reader pre bad post texts e :
  quiet env (syscalls w) (2 + length texts) ->
  open_pdf env WORKDIR PDF_NAME = Returned reader ->
  pages reader = pre ++ bad :: post ->
  texts_of pre texts -> all_encodable texts ->
  extract_text_result bad = Raised e ->
  extract_prd env w
  = (stopped PRD_FULL (encode_text (os_name env) (concatenated texts)) (length texts) w,
     Raised e).
Proof.
  intros Hq Hpdf Hpages Htx Henc Hbad.
  apply (extract_prd_stops env w reader pre bad post texts); try assumption.
  intros f _ _. unfold extract_prd_page, extract_text, lift.
  rewrite run_bind, Hbad. reflexivity.
Qed.

Lemma extract_prd_extraction_failure_witness :
  extract_prd (faulty_env nt broken_document []) empty_world
  = (stopped PRD_FULL (encode_text nt (lit "Intro" ++ PAGE_BREAK)) 1 empty_world,
     Raised PdfReadError).
Proof.
  apply (extract_prd_extraction_failure (faulty_env nt broken_document []) empty_world
           broken_document [page_of (lit "Intro")]
           {| extract_text_result := Raised PdfReadError |} [page_of (lit "End")]
           [lit "Intro"] PdfReadError).
  - intros k _. reflexivity.
  - reflexivity.
  - reflexivity.
  - reflexivity.
  - repeat constructor.
  - reflexivity.
Defined.

(** X2.  A page text that UTF-8 cannot encode stops the first script
    with [UnicodeEncodeError]; text and marker are encoded as one string,
    so not even the part of the text before the offending character
    reaches the file. *)
Theorem extract_prd_unencodable_page env w reader pre bad post texts t :
  quiet env (syscalls w) (2 + length texts) ->
  open_pdf env WORKDIR PDF_NAME = Returned reader ->
  pages reader = pre ++ bad :: post ->
  texts_of pre texts -> all_encodable texts ->
  extract_text_result bad = Returned t ->
  forallb encodable t = false ->
  extract_prd env w
  = (stopped PRD_FULL (encode_text (os_name env) (concatenated texts)) (length texts) w,
     Raised UnicodeEncodeError).
Proof.
  intros Hq Hpdf Hpages Htx Henc Hbad Ht.
  apply (extract_prd_stops env w reader pre bad post texts); try assumption.
  intros f _ _. unfold extract_prd_page, extract_text, lift.
  rewrite run_bind, Hbad. apply write_unencodable, forallb_app_false_l, Ht.
Qed.

Lemma extract_prd_unencodable_page_witness :
  extract_prd (sample_env posix [lit "Intro"; surrogate_text; lit "End"]) empty_world
  = (stopped PRD_FULL (lit "Intro" ++ PAGE_BREAK) 1 empty_world, Raised UnicodeEncodeError).
Proof.
  apply (extract_prd_unencodable_page (sample_env posix [lit "Intro"; surrogate_text; lit "End"])
           empty_world (document [lit "Intro"; surrogate_text; lit "End"])
           [page_of (lit "Intro")] (page_of surrogate_text) [page_of (lit "End")]
           [lit "Intro"] surrogate_text).
  - intros k _. reflexivity.
  - reflexivity.
  - reflexivity.
  - reflexivity.
  - repeat constructor.
  - reflexivity.
  - reflexivity.
Defined.

(** X3.  When the write for page k + 1 fails in the file system, the
    first script ends with [OSError].  What its file then holds is a
    prefix of what the script has handed to it, the text and marker of
    page k + 1 included: the octets that had reached the disk.  The pages
    before need not all be among them, and a part of page k + 1 can be. *)
Theorem extract_prd_write_failure env w reader pre page post texts t :
  quiet env (syscalls w) (2 + length texts) ->
  io_fault env (syscalls w + 2 + length texts) = true ->
  open_pdf env WORKDIR PDF_NAME = Returned reader ->
  pages reader = pre ++ page :: post ->
  texts_of pre texts -> all_encodable texts ->
  extract_text_result page = Returned t ->
  forallb encodable t = true ->
  extract_prd env w
  = (stopped PRD_FULL
       (take (accepted env (syscalls w + 2 + length texts))
             (encode_text (os_name env) (concatenated texts)
              ++ encode_text (os_name env) (t ++ PAGE_BREAK)))
       (S (length texts)) w,
     Raised OSError).
Proof.
  intros Hq Hf Hpdf Hpages Htx Henc Hpage Ht.
  apply (extract_prd_stops env w reader pre page post texts); try assumption.
  intros f Hn He. unfold extract_prd_page, extract_text, lift.
  rewrite run_bind, Hpage, write_fault;
    [| apply all_encodable_app; [assumption | reflexivity] | exact Hf].
  f_equal. unfold encode_chunk. rewrite Hn, He.
  apply World_eq; cbn [fs cwd stdout syscalls stopped lose set_fs tick]; try reflexivity.
  - rewrite lookup_insert_eq, insert_insert_eq. reflexivity.
  - lia.
Qed.

Lemma extract_prd_write_failure_witness :
  extract_prd (lossy_env posix (document example_texts) [3%nat] 30) empty_world
  = (stopped PRD_FULL (lit "Intro" ++ PAGE_BREAK ++ lit "Body" ++ [LF]) 2 empty_world,
     Raised OSError).
Proof.
  apply (extract_prd_write_failure (lossy_env posix (document example_texts) [3%nat] 30)
           empty_world (document example_texts)
           [page_of (lit "Intro")] (page_of (lit "Body")) [page_of (lit "End")]
           [lit "Intro"] (lit "Body")).
  - intros k Hk. simpl in Hk. apply bool_decide_eq_false. rewrite list_elem_of_singleton. lia.
  - reflexivity.
  - reflexivity.
  - reflexivity.
  - reflexivity.
  - repeat constructor.
  - reflexivity.
  - reflexivity.
Defined.

(** ** extract_prd2.py: the run stops at the page that fails *)


(** X4.  The second script extracts the text of a page before it writes
    the header of that page: when [extract_text] raises on page k + 1, the
    run ends with that exception and the file ends with the text of page
    k, without a header for page k + 1. *)
Theorem extract_prd2_extraction_failure env w reader pre bad post texts e :
  quiet env (syscalls w) (2 + 2 * length texts) ->
  open_pdf env WORKDIR PDF_NAME = Returned reader ->
  pages reader = pre ++ bad :: post ->
  texts_of pre texts -> all_encodable texts ->
  extract_text_result bad = Raised e ->
  extract_prd2 env w
  = (stopped output_path (encode_text (os_name env) (headered texts)) (2 * length texts) w,
     Raised e).
Proof.
  intros Hq Hpdf Hpages Htx Henc Hbad.
  apply (extract_prd2_stops env w reader pre bad post texts); try assumption.
  intros f _ _. unfold extract_prd2_page, extract_text, lift.
  rewrite run_bind, Hbad. reflexivity.
Qed.

Lemma extract_prd2_extraction_failure_witness :
  extract_prd2 (faulty_env posix broken_document []) empty_world
  = (stopped output_path (page_header 1 ++ lit "Intro") 2 empty_world, Raised PdfReadError).
Proof.
  apply (extract_prd2_extraction_failure (faulty_env posix broken_document []) empty_world
           broken_document [page_of (lit "Intro")]
           {| extract_text_result := Raised PdfReadError |} [page_of (lit "End")]
           [lit "Intro"] PdfReadError).
  - intros k _. reflexivity.
  - reflexivity.
  - reflexivity.
  - reflexivity.
  - repeat constructor.
  - reflexivity.
Defined.

(** X5.  The second script writes header and text with two calls of
    [write]: a page text that cannot be encoded stops it with
    [UnicodeEncodeError] after the header of that page has reached the
    file, so the file ends with a header that no text follows. *)
Theorem extract_prd2_unencodable_page env w reader pre bad post texts t :
  quiet env (syscalls w) (2 + 2 * length texts + 1) ->
  open_pdf env WORKDIR PDF_NAME = Returned reader ->
  pages reader = pre ++ bad :: post ->
  texts_of pre texts -> all_encodable texts ->
  extract_text_result bad = Returned t ->
  forallb encodable t = false ->
  extract_prd2 env w
  = (stopped output_path
       (encode_text (os_name env)
          (headered texts ++ page_header (N.of_nat (length texts) + 1)))
       (2 * length texts + 1) w,
     Raised UnicodeEncodeError).
Proof.
  intros Hq Hpdf Hpages Htx Henc Hbad Ht.
  apply (extract_prd2_stops env w reader pre bad post texts); try assumption.
  { apply (quiet_le _ _ (2 + 2 * length texts + 1)); [lia | assumption]. }
  intros f Hn He. unfold extract_prd2_page, extract_text, lift.
  rewrite run_bind, Hbad, run_bind.
  rewrite (write_utf_8 env f _ _ (encode_text (os_name env) (headered texts)));
    [| assumption | apply page_header_encodable | apply Hq; simpl; lia
     | rewrite Hn; apply lookup_insert_eq].
  rewrite write_unencodable by assumption. f_equal.
  apply World_eq; cbn [fs cwd stdout syscalls stopped]; try reflexivity; [|lia].
  rewrite Hn, insert_insert_eq, encode_text_app. reflexivity.
Qed.

Lemma extract_prd2_unencodable_page_witness :
  extract_prd2 (sample_env posix [lit "Intro"; surrogate_text; lit "End"]) empty_world
  = (stopped output_path (page_header 1 ++ lit "Intro" ++ page_header 2) 3 empty_world,
     Raised UnicodeEncodeError).
Proof.
  apply (extract_prd2_unencodable_page
           (sample_env posix [lit "Intro"; surrogate_text; lit "End"])
           empty_world (document [lit "Intro"; surrogate_text; lit "End"])
           [page_of (lit "Intro")] (page_of surrogate_text) [page_of (lit "End")]
           [lit "Intro"] surrogate_text).
  - intros k _. reflexivity.
  - reflexivity.
  - reflexivity.
  - reflexivity.
  - repeat constructor.
  - reflexivity.
  - reflexivity.
Defined.

(** ** extract_prd_pages.py: the run stops at the page that fails *)


(** X6.  The third script opens the file of a page before it extracts
    the text of that page: when [extract_text] raises on page k + 1, the
    run ends with that exception, the files of the k pages before are
    complete, and the file of page k + 1 exists and is empty, whatever it
    held before the run. *)
Theorem extract_prd_pages_extraction_failure env w reader pre bad post texts e :
  quiet env (syscalls w) (1 + 2 * length texts + 1) ->
  open_pdf env WORKDIR PDF_NAME = Returned reader ->
  pages reader = pre ++ bad :: post ->
  texts_of pre texts -> all_encodable texts ->
  extract_text_result bad = Raised e ->
  extract_prd_pages env w = (stopped_pages env texts w, Raised e) /\
  fs (fst (extract_prd_pages env w)) !! page_path env (N.of_nat (length texts) + 1) = Some [].
Proof.
  intros Hq Hpdf Hpages Htx Henc Hbad.
  assert (Hrun : extract_prd_pages env w = (stopped_pages env texts w, Raised e)).
  { apply (extract_prd_pages_stops env w reader pre bad post texts); try assumption.
    intros w1. unfold extract_text, lift. rewrite run_bind, Hbad. reflexivity. }
  split; [exact Hrun|]. rewrite Hrun. apply lookup_insert_eq.
Qed.

Lemma extract_prd_pages_extraction_failure_witness :
  let env := faulty_env nt broken_document [] in
  let w := {| fs := {[page_path env 2 := lit "from an earlier run"]};
              cwd := []; stdout := []; syscalls := 0 |} in
  fs (fst (extract_prd_pages env w)) !! page_path env 2 = Some [].
Proof.
  intros env w.
  apply (extract_prd_pages_extraction_failure env w broken_document
           [page_of (lit "Intro")]
           {| extract_text_result := Raised PdfReadError |} [page_of (lit "End")]
           [lit "Intro"] PdfReadError).
  - intros k _. reflexivity.
  - reflexivity.
  - reflexivity.
  - reflexivity.
  - repeat constructor.
  - reflexivity.
Defined.

(** X7.  A page text that cannot be encoded stops the third script with
    [UnicodeEncodeError] and leaves the file of that page without a single
    octet: the byte-order mark is written with the text or not at all. *)
Theorem extract_prd_pages_unencodable_page env w reader pre bad post texts t :
  quiet env (syscalls w) (1 + 2 * length texts + 1) ->
  open_pdf env WORKDIR PDF_NAME = Returned reader ->
  pages reader = pre ++ bad :: post ->
  texts_of pre texts -> all_encodable texts ->
  extract_text_result bad = Returned t ->
  forallb encodable t = false ->
  extract_prd_pages env w = (stopped_pages env texts w, Raised UnicodeEncodeError) /\
  fs (fst (extract_prd_pages env w)) !! page_path env (N.of_nat (length texts) + 1) = Some [].
Proof.
  intros Hq Hpdf Hpages Htx Henc Hbad Ht.
  assert (Hrun : extract_prd_pages env w
                 = (stopped_pages env texts w, Raised UnicodeEncodeError)).
  { apply (extract_prd_pages_stops env w reader pre bad post texts); try assumption.
    intros w1. unfold extract_text, lift. rewrite run_bind, Hbad.
    apply write_unencodable, Ht. }
  split; [exact Hrun|]. rewrite Hrun. apply lookup_insert_eq.
Qed.

Lemma extract_prd_pages_unencodable_page_witness :
  let env := sample_env posix [lit "Intro"; surrogate_text; lit "End"] in
  fs (fst (extract_prd_pages env empty_world)) !! page_path env 2 = Some [].
Proof.
  intros env.
  apply (extract_prd_pages_unencodable_page env empty_world
           (document [lit "Intro"; surrogate_text; lit "End"])
           [page_of (lit "Intro")] (page_of surrogate_text) [page_of (lit "End")]
           [lit "Intro"] surrogate_text).
  - intros k _. reflexivity.
  - reflexivity.
  - reflexivity.
  - reflexivity.
  - repeat constructor.
  - reflexivity.
  - reflexivity.
Defined.

(** ** Failures before the first page *)

(** X8.  When the PDF cannot be opened, each script ends with the
    exception of the library before it has opened its destination: no
    file is created, none is cut to length zero, nothing is printed; only
    the working directory has changed. *)
Theorem document_open_failure env w e :
  io_fault env (syscalls w) = false ->
  open_pdf env WORKDIR PDF_NAME = Raised e ->
  extract_prd env w = (in_workdir w, Raised e) /\
  extract_prd2 env w = (in_workdir w, Raised e) /\
  extract_prd_pages env w = (in_workdir w, Raised e).
Proof.
  intros H0 Hpdf. unfold extract_prd, extract_prd2, extract_prd_pages.
  rewrite !run_bind, !os_chdir_ok by assumption.
  rewrite !run_bind, !PyPDF2_PdfReader_run. cbn [cwd]. rewrite Hpdf.
  repeat split.
Qed.

Lemma document_open_failure_witness :
  let w := {| fs := {[PRD_FULL := lit "earlier output"]}; cwd := []; stdout := [];
              syscalls := 0 |} in
  extract_prd (no_pdf_env nt PdfReadError) w = (in_workdir w, Raised PdfReadError).
Proof.
  intros w.
  apply (document_open_failure (no_pdf_env nt PdfReadError) w PdfReadError);
    reflexivity.
Defined.

(** X9.  When the working directory cannot be changed, each script ends
    with [OSError] at once: the PDF library is not even asked, so the
    result is the same whatever the PDF is. *)
Theorem chdir_failure env w :
  io_fault env (syscalls w) = true ->
  extract_prd env w = (tick w, Raised OSError) /\
  extract_prd2 env w = (tick w, Raised OSError) /\
  extract_prd_pages env w = (tick w, Raised OSError).
Proof.
  intros H0. unfold extract_prd, extract_prd2, extract_prd_pages.
  rewrite !run_bind, !os_chdir_fault by assumption. repeat split.
Qed.

Lemma chdir_failure_witness :
  extract_prd_pages (faulty_env posix (document example_texts) [0%nat]) empty_world
  = (tick empty_world, Raised OSError).
Proof.
  apply (chdir_failure (faulty_env posix (document example_texts) [0%nat]) empty_world).
  reflexivity.
Defined.

(** X10.  The first two scripts open the PDF before they open their
    destination: when the destination cannot be opened, the run ends
    with [OSError], and a file that was at the destination keeps its
    content. *)
Theorem destination_open_failure env w reader :
  io_fault env (syscalls w) = false ->
  io_fault env (S (syscalls w)) = true ->
  open_pdf env WORKDIR PDF_NAME = Returned reader ->
  extract_prd env w = (tick (in_workdir w), Raised OSError) /\
  extract_prd2 env w = (tick (in_workdir w), Raised OSError).
Proof.
  intros H0 H1 Hpdf. unfold extract_prd, extract_prd2.
  rewrite !run_bind, !os_chdir_ok by assumption.
  rewrite !run_bind, !PyPDF2_PdfReader_run. cbn [cwd]. rewrite Hpdf.
  rewrite !run_bind, !with_open_fault by assumption. split; reflexivity.
Qed.

Lemma destination_open_failure_witness :
  extract_prd2 (faulty_env nt (document example_texts) [1%nat]) empty_world
  = (tick (in_workdir empty_world), Raised OSError).
Proof.
  apply (destination_open_failure (faulty_env nt (document example_texts) [1%nat])
           empty_world (document example_texts)); reflexivity.
Defined.

(** ** What the first two scripts leave alone *)

Lemma extract_prd_fs_at env w :
  exists m, fs (fst (extract_prd env w)) = m /\
            forall c, <[PRD_FULL := c]> m = <[PRD_FULL := c]> (fs w).
Proof.
  eexists. split; [reflexivity|].
  pose proof (extract_prd_run_ends env w) as H.
  destruct (extract_prd env w) as [w' r].
  apply extract_prd_ends_summary in H as [H _]. exact H.
Qed.

Lemma extract_prd2_fs_at env w :
  exists m, fs (fst (extract_prd2 env w)) = m /\
            forall c, <[output_path := c]> m = <[output_path := c]> (fs w).
Proof.
  eexists. split; [reflexivity|].
  pose proof (extract_prd2_run_ends env w) as H.
  destruct (extract_prd2 env w) as [w' r].
  apply extract_prd2_ends_summary in H as [H _]. exact H.
Qed.

(** X11.  Whatever happens in a run of the first or of the second
    script, every file other than its one destination is afterwards what
    it was before. *)
Theorem single_file_frame env w p :
  (p <> PRD_FULL -> fs (fst (extract_prd env w)) !! p = fs w !! p) /\
  (p <> output_path -> fs (fst (extract_prd2 env w)) !! p = fs w !! p).
Proof.
  split; intros Hp.
  - destruct (extract_prd_fs_at env w) as (m & -> & Hm).
    rewrite <- (lookup_insert_ne m PRD_FULL p []), Hm by congruence.
    apply lookup_insert_ne. congruence.
  - destruct (extract_prd2_fs_at env w) as (m & -> & Hm).
    rewrite <- (lookup_insert_ne m output_path p []), Hm by congruence.
    apply lookup_insert_ne. congruence.
Qed.

Lemma single_file_frame_witness :
  let w := {| fs := {[output_path := lit "of the second script"]}; cwd := []; stdout := [];
              syscalls := 0 |} in
  fs (fst (extract_prd (sample_env nt example_texts) w)) !! output_path
  = Some (lit "of the second script").
Proof.
  intros w.
  destruct (single_file_frame (sample_env nt example_texts) w output_path) as [H _].
  rewrite H; [apply lookup_singleton_eq | discriminate].
Defined.

(** ** The working directory *)

Section KeepsCwd.

Variable env : Env.

Lemma keeps_cwd_ret {A} (a : A) : keeps_cwd (mret a : M A).
Proof. intros w. reflexivity. Qed.

Lemma keeps_cwd_lift {A} (r : Outcome A) : keeps_cwd (lift r).
Proof. intros w. reflexivity. Qed.

Lemma keeps_cwd_bind {A B} (c : M A) (k : A -> M B) :
  keeps_cwd c -> (forall a, keeps_cwd (k a)) -> keeps_cwd (c ≫= k).
Proof.
  intros Hc Hk w. rewrite run_bind. specialize (Hc w).
  destruct (c w) as [w' [a|e]]; simpl in *; [rewrite Hk|]; assumption.
Qed.

Lemma keeps_cwd_modify (f : World -> World) :
  (forall w, cwd (f w) = cwd w) -> keeps_cwd (modify f).
Proof. intros Hf w. apply Hf. Qed.

Lemma keeps_cwd_syscall : keeps_cwd (syscall env).
Proof. intros w. unfold syscall. destruct (io_fault env (syscalls w)); reflexivity. Qed.

Lemma keeps_cwd_write f s : keeps_cwd (write env f s).
Proof.
  unfold write. destruct (forallb encodable s); intros w; [|reflexivity].
  unfold syscall. destruct (io_fault env (syscalls w)); reflexivity.
Qed.

Lemma keeps_cwd_with_open {A} path enc (body : TextIOWrapper -> M A) :
  (forall f, keeps_cwd (body f)) -> keeps_cwd (with_open env path enc body).
Proof.
  intros Hb. unfold with_open, open_w.
  apply keeps_cwd_bind.
  { apply keeps_cwd_bind; [apply keeps_cwd_syscall|]. intros _.
    apply keeps_cwd_bind; [apply keeps_cwd_modify; reflexivity|]. intros _.
    apply keeps_cwd_ret. }
  intros f w. unfold finally. specialize (Hb f w).
  destruct (body f w) as [w' [a|e]]; exact Hb.
Qed.

Lemma keeps_cwd_for_each {X S} (xs : list X) (body : X -> S -> M S) s :
  (forall x s, keeps_cwd (body x s)) -> keeps_cwd (for_each xs body s).
Proof.
  intros Hb. revert s. induction xs as [|x xs IH]; intros s; simpl.
  - apply keeps_cwd_ret.
  - apply keeps_cwd_bind; [apply Hb | intros s'; apply IH].
Qed.

Lemma keeps_cwd_print line : keeps_cwd (print line).
Proof. apply keeps_cwd_modify. reflexivity. Qed.

Lemma keeps_cwd_extract_prd_page page f : keeps_cwd (extract_prd_page env page f).
Proof.
  apply keeps_cwd_bind; [apply keeps_cwd_lift | intros t; apply keeps_cwd_write].
Qed.

Lemma keeps_cwd_extract_prd2_page ip f : keeps_cwd (extract_prd2_page env ip f).
Proof.
  destruct ip as [i page]. apply keeps_cwd_bind; [apply keeps_cwd_lift|]. intros t.
  apply keeps_cwd_bind; [apply keeps_cwd_write | intros f'; apply keeps_cwd_write].
Qed.

Lemma keeps_cwd_extract_prd_pages_page ip u : keeps_cwd (extract_prd_pages_page env ip u).
Proof.
  destruct ip as [i page]. apply keeps_cwd_bind.
  { apply keeps_cwd_with_open. intros f.
    apply keeps_cwd_bind; [apply keeps_cwd_lift | intros t; apply keeps_cwd_write]. }
  intros _. apply keeps_cwd_bind; [|intros size; apply keeps_cwd_print].
  intros w. unfold os_path_getsize. destruct (fs w !! _); reflexivity.
Qed.

End KeepsCwd.

(** X12.  On [nt], the platform whose paths the scripts use: the
    directory the scripts change to, their output files and the output
    directory are named with a drive and from the root, so that no
    working directory takes part in finding them.  Each script changes
    the working directory of the process first; what it then writes,
    prints and raises does not depend on the directory it was started
    in; and once the change has succeeded the process stays in the
    directory of the script, also when the run fails later. *)
Theorem working_directory env w d :
  os_name env = nt ->
  (fully_qualified WORKDIR = true /\ fully_qualified PRD_FULL = true /\
   fully_qualified output_path = true /\
   forall n, fully_qualified (page_path env n) = true) /\
  (snd (extract_prd env (with_cwd d w)) = snd (extract_prd env w) /\
   fs (fst (extract_prd env (with_cwd d w))) = fs (fst (extract_prd env w)) /\
   stdout (fst (extract_prd env (with_cwd d w))) = stdout (fst (extract_prd env w))) /\
  (snd (extract_prd2 env (with_cwd d w)) = snd (extract_prd2 env w) /\
   fs (fst (extract_prd2 env (with_cwd d w))) = fs (fst (extract_prd2 env w)) /\
   stdout (fst (extract_prd2 env (with_cwd d w))) = stdout (fst (extract_prd2 env w))) /\
  (snd (extract_prd_pages env (with_cwd d w)) = snd (extract_prd_pages env w) /\
   fs (fst (extract_prd_pages env (with_cwd d w))) = fs (fst (extract_prd_pages env w)) /\
   stdout (fst (extract_prd_pages env (with_cwd d w)))
   = stdout (fst (extract_prd_pages env w))) /\
  (io_fault env (syscalls w) = false ->
   cwd (fst (extract_prd env w)) = WORKDIR /\
   cwd (fst (extract_prd2 env w)) = WORKDIR /\
   cwd (fst (extract_prd_pages env w)) = WORKDIR).
Proof.
  intros Hos. split.
  { split; [reflexivity|]. split; [reflexivity|]. split; [reflexivity|].
    intros n. rewrite page_path_eq. reflexivity. }
  unfold extract_prd, extract_prd2, extract_prd_pages.
  destruct (io_fault env (syscalls w)) eqn:H0.
  - rewrite !run_bind, !os_chdir_fault by assumption.
    repeat split; try reflexivity; discriminate.
  - rewrite !run_bind, !os_chdir_ok by assumption.
    split; [repeat split|]. split; [repeat split|]. split; [repeat split|].
    intros _. split; [|split].
    + refine (keeps_cwd_bind (PyPDF2_PdfReader env PDF_NAME) _ _ _ (in_workdir w));
        [intros w0; reflexivity|].
      intros reader. apply keeps_cwd_bind; [|intros _; apply keeps_cwd_print].
      apply keeps_cwd_with_open. intros f.
      apply keeps_cwd_bind; [apply keeps_cwd_lift|]. intros pgs.
      apply keeps_cwd_for_each. intros x s. apply keeps_cwd_extract_prd_page.
    + refine (keeps_cwd_bind (PyPDF2_PdfReader env PDF_NAME) _ _ _ (in_workdir w));
        [intros w0; reflexivity|].
      intros reader. apply keeps_cwd_bind.
      * apply keeps_cwd_with_open. intros f.
        apply keeps_cwd_bind; [apply keeps_cwd_lift|]. intros pgs.
        apply keeps_cwd_for_each. intros x s. apply keeps_cwd_extract_prd2_page.
      * intros _. apply keeps_cwd_bind; [apply keeps_cwd_lift|]. intros pgs.
        apply keeps_cwd_print.
    + refine (keeps_cwd_bind (PyPDF2_PdfReader env PDF_NAME) _ _ _ (in_workdir w));
        [intros w0; reflexivity|].
      intros reader. apply keeps_cwd_bind; [apply keeps_cwd_lift|]. intros pgs.
      apply keeps_cwd_bind; [|intros _; apply keeps_cwd_print].
      apply keeps_cwd_for_each. intros x s. apply keeps_cwd_extract_prd_pages_page.
Qed.

Lemma working_directory_witness :
  let env := faulty_env nt broken_document [] in
  let w := with_cwd (lit "d:\elsewhere") empty_world in
  cwd (fst (extract_prd env w)) = WORKDIR /\
  fs (fst (extract_prd env w)) = fs (fst (extract_prd env empty_world)).
Proof.
  intros env w.
  destruct (working_directory env empty_world (lit "d:\elsewhere") eq_refl)
    as (_ & (_ & Hfs & _) & _ & _ & _).
  destruct (working_directory env w [] eq_refl) as (_ & _ & _ & _ & H).
  destruct (H eq_refl) as [H1 _]. split; [exact H1 | exact Hfs].
Defined.

(** ** What the scripts print *)

Lemma page_lines_lookup os texts : forall i k,
  page_lines os i texts !! k = page_line os (i + N.of_nat k) <$> texts !! k.
Proof.
  induction texts as [|t ts IH]; intros i k; [reflexivity|].
  destruct k as [|k]; unfold page_lines in *; cbn [enumerate_from map].
  - simpl. rewrite N.add_0_r. reflexivity.
  - cbn [lookup list_lookup]. rewrite IH. replace (i + 1 + N.of_nat k) with (i + N.of_nat (S k)) by lia.
    reflexivity.
Qed.

Lemma page_lines_length os i texts : length (page_lines os i texts) = length texts.
Proof. unfold page_lines. rewrite length_map. apply enumerate_from_length. Qed.

(** X13.  In a run of the third script that completes, the line printed
    for a page states the size that the file of that page has when the
    run is over; the size is never below three, the octets of the
    byte-order mark. *)
Theorem reported_sizes env w texts k t :
  nothing_fails env w (1 + 2 * length texts) texts ->
  texts !! k = Some t ->
  exists data,
    fs (fst (extract_prd_pages env w)) !! page_path env (N.of_nat k + 1) = Some data /\
    stdout (fst (extract_prd_pages env w)) !! (length (stdout w) + k)%nat
    = Some (lit "Page " ++ format_int (N.of_nat k + 1) ++ lit ": "
            ++ format_int (N.of_nat (length data)) ++ lit " bytes") /\
    (3 <= length data)%nat.
Proof.
  intros Hok Hk. rewrite (extract_prd_pages_fs env w texts Hok). cbn [fst fs stdout].
  exists (page_content (os_name env) t).
  split; [apply (page_files_lookup env texts 0 (fs w) k t Hk)|].
  split.
  - rewrite lookup_app_r by lia.
    replace (length (stdout w) + k - length (stdout w))%nat with k by lia.
    rewrite lookup_app_l
      by (rewrite page_lines_length; apply lookup_lt_is_Some; eauto).
    rewrite page_lines_lookup, Hk. reflexivity.
  - unfold page_content. rewrite length_app. simpl. lia.
Qed.

Lemma reported_sizes_witness :
  stdout (fst (extract_prd_pages (sample_env nt example_texts) empty_world)) !! 1%nat
  = Some (lit "Page 2: 7 bytes").
Proof.
  destruct (reported_sizes (sample_env nt example_texts) empty_world example_texts
              1 (lit "Body")) as (data & Hfs & Hout & _).
  - split; [intros j _; reflexivity|].
    exists (document example_texts).
    split; [reflexivity|]. split; [reflexivity|]. repeat constructor.
  - reflexivity.
  - assert (Hd : data = page_content nt (lit "Body")).
    { vm_compute in Hfs. injection Hfs as <-. reflexivity. }
    subst data. exact Hout.
Defined.

(** X14.  The closing line of the first and of the second script is
    printed exactly when the run completes: a run that returns has added
    that one line, in the second script with the number of pages that
    were written, and a run that raises has printed nothing. *)
Theorem closing_line env w :
  match snd (extract_prd env w) with
  | Returned _ => stdout (fst (extract_prd env w)) = stdout w ++ [lit "Done"]
  | Raised _ => stdout (fst (extract_prd env w)) = stdout w
  end /\
  match snd (extract_prd2 env w) with
  | Returned _ =>
      exists texts,
        nothing_fails env w (2 + 2 * length texts) texts /\
        stdout (fst (extract_prd2 env w))
        = stdout w ++ [lit "Extracted " ++ format_int (N.of_nat (length texts))
                       ++ lit " pages to " ++ output_path]
  | Raised _ => stdout (fst (extract_prd2 env w)) = stdout w
  end.
Proof.
  split.
  - pose proof (extract_prd_run_ends env w) as H.
    destruct (extract_prd env w) as [w' r].
    apply extract_prd_ends_summary in H as [_ H]. cbn [fst snd].
    destruct r as [u|e]; [|exact H]. destruct H as (texts & _ & H). exact H.
  - pose proof (extract_prd2_run_ends env w) as H.
    destruct (extract_prd2 env w) as [w' r].
    apply extract_prd2_ends_summary in H as [_ H]. cbn [fst snd].
    destruct r as [u|e]; exact H.
Qed.

(** ** UTF-8 can be decoded *)

(** A property of the numbers below a bound holds when it holds of each. *)
Lemma below_all (P : N -> bool) (n : nat) :
  forallb P (map N.of_nat (seq 0 n)) = true ->
  forall x, x < N.of_nat n -> P x = true.
Proof.
  intros H x Hx. rewrite forallb_forall in H. apply H.
  apply in_map_iff. exists (N.to_nat x). split; [lia|]. apply in_seq. lia.
Qed.

Lemma lor_0x80 x : x < 64 -> N.lor 0x80 x = 128 + x.
Proof.
  intros H. apply N.eqb_eq.
  apply (below_all (fun x => N.lor 0x80 x =? 128 + x) 64); [vm_compute; reflexivity | exact H].
Qed.

Lemma lor_0xC0 x : x < 32 -> N.lor 0xC0 x = 192 + x.
Proof.
  intros H. apply N.eqb_eq.
  apply (below_all (fun x => N.lor 0xC0 x =? 192 + x) 32); [vm_compute; reflexivity | exact H].
Qed.

Lemma lor_0xE0 x : x < 16 -> N.lor 0xE0 x = 224 + x.
Proof.
  intros H. apply N.eqb_eq.
  apply (below_all (fun x => N.lor 0xE0 x =? 224 + x) 16); [vm_compute; reflexivity | exact H].
Qed.

Lemma lor_0xF0 x : x < 8 -> N.lor 0xF0 x = 240 + x.
Proof.
  intros H. apply N.eqb_eq.
  apply (below_all (fun x => N.lor 0xF0 x =? 240 + x) 8); [vm_compute; reflexivity | exact H].
Qed.

Lemma land_0x3F x : N.land x 0x3F = x mod 64.
Proof. change 0x3F with (N.ones 6). rewrite N.land_ones. reflexivity. Qed.

(** The octets of a code point, in arithmetic. *)
Lemma utf_8_encode_char_eq c :
  c <= 0x10FFFF ->
  utf_8_encode_char c
  = if c <? 0x80 then [c]
    else if c <? 0x800 then [192 + c / 64; 128 + c mod 64]
    else if c <? 0x10000 then [224 + c / 4096; 128 + (c / 64) mod 64; 128 + c mod 64]
    else [240 + c / 262144; 128 + (c / 4096) mod 64; 128 + (c / 64) mod 64; 128 + c mod 64].
Proof.
  intros Hc. unfold utf_8_encode_char.
  rewrite !land_0x3F, !N.shiftr_div_pow2.
  change (2 ^ 6) with 64. change (2 ^ 12) with 4096. change (2 ^ 18) with 262144.
  rewrite !lor_0x80 by (apply N.mod_lt; discriminate).
  destruct (c <? 0x80) eqn:E1; [reflexivity|].
  destruct (c <? 0x800) eqn:E2.
  { apply N.ltb_lt in E2. rewrite lor_0xC0; [reflexivity|].
    apply N.Div0.div_lt_upper_bound. exact E2. }
  destruct (c <? 0x10000) eqn:E3.
  { apply N.ltb_lt in E3. rewrite lor_0xE0; [reflexivity|].
    apply N.Div0.div_lt_upper_bound. exact E3. }
  rewrite lor_0xF0; [reflexivity|].
  apply N.Div0.div_lt_upper_bound. lia.
Qed.

(** The digits of a code point to the base 64. *)
Lemma base_64_digits c :
  c = 64 * (c / 64) + c mod 64 /\ c mod 64 < 64 /\
  c / 64 = 64 * (c / 4096) + (c / 64) mod 64 /\ (c / 64) mod 64 < 64 /\
  c / 4096 = 64 * (c / 262144) + (c / 4096) mod 64 /\ (c / 4096) mod 64 < 64.
Proof.
  split; [apply N.Div0.div_mod|]. split; [apply N.mod_lt; discriminate|].
  split; [|split; [apply N.mod_lt; discriminate|]].
  { change 4096 with (64 * 64). rewrite <- N.Div0.div_div. apply N.Div0.div_mod. }
  split; [|apply N.mod_lt; discriminate].
  change 262144 with (4096 * 64). rewrite <- N.Div0.div_div. apply N.Div0.div_mod.
Qed.

(** Forget what the digits are, and keep how they add up. *)
Ltac digits_of c :=
  let H := fresh "H" in
  pose proof (base_64_digits c) as H;
  generalize dependent (c mod 64); generalize dependent ((c / 64) mod 64);
  generalize dependent ((c / 4096) mod 64);
  generalize dependent (c / 64); generalize dependent (c / 4096);
  generalize dependent (c / 262144); intros.

(** No encoding of a code point is the beginning of another: from the
    octets of a code point followed by anything, the code point and what
    follows can be told. *)
Lemma utf_8_encode_char_inj c1 c2 r1 r2 :
  c1 <= 0x10FFFF -> c2 <= 0x10FFFF ->
  utf_8_encode_char c1 ++ r1 = utf_8_encode_char c2 ++ r2 ->
  c1 = c2 /\ r1 = r2.
Proof.
  intros H1 H2. rewrite !utf_8_encode_char_eq by assumption.
  destruct (c1 <? 0x80) eqn:A1; [|destruct (c1 <? 0x800) eqn:A2; [|destruct (c1 <? 0x10000) eqn:A3]];
  (destruct (c2 <? 0x80) eqn:B1; [|destruct (c2 <? 0x800) eqn:B2; [|destruct (c2 <? 0x10000) eqn:B3]]);
  rewrite ?N.ltb_lt, ?N.ltb_ge in *; cbn [app]; intros E; injection E; clear E; intros;
  digits_of c1; digits_of c2; try (exfalso; lia); (split; [lia | assumption]).
Qed.

Lemma encodable_bound c : encodable c = true -> c <= 0x10FFFF.
Proof.
  unfold encodable. rewrite orb_true_iff, andb_true_iff, N.ltb_lt, N.ltb_lt, N.leb_le. lia.
Qed.

(** An octet below 128 at the head of an encoding is the code point. *)
Lemma utf_8_encode_char_head c :
  c <= 0x10FFFF ->
  exists b r, utf_8_encode_char c = b :: r /\ (b < 128 -> c = b /\ r = []).
Proof.
  intros Hc. rewrite utf_8_encode_char_eq by assumption.
  destruct (c <? 0x80) eqn:A1; [|destruct (c <? 0x800) eqn:A2; [|destruct (c <? 0x10000) eqn:A3]];
    eexists _, _; (split; [reflexivity|]); intros Hb; [auto | exfalso; digits_of c; lia ..].
Qed.

(** On [nt] no text is encoded to octets that start with a line feed:
    every line feed is written after a carriage return. *)
Lemma encode_text_nt_head s r :
  Forall (fun c => c <= 0x10FFFF) s -> encode_text nt s <> LF :: r.
Proof.
  intros Hs. destruct s as [|c s]; [discriminate|].
  apply Forall_cons in Hs as [Hc _].
  cbn [encode_text flat_map]. unfold encode_char.
  destruct (c =? LF) eqn:E; [discriminate|]. apply N.eqb_neq in E.
  destruct (utf_8_encode_char_head c Hc) as (b & r' & -> & Hb).
  intros H. injection H as -> _. apply E. apply Hb. reflexivity.
Qed.

(** The octets of a text file tell its text, on either platform. *)
Lemma encode_text_inj os s1 : forall s2,
  Forall (fun c => c <= 0x10FFFF) s1 -> Forall (fun c => c <= 0x10FFFF) s2 ->
  encode_text os s1 = encode_text os s2 -> s1 = s2.
Proof.
  assert (Hne : forall c s, c <= 0x10FFFF -> encode_text os (c :: s) <> []).
  { intros c s Hc. cbn [encode_text flat_map]. unfold encode_char.
    destruct (c =? LF); [destruct os; discriminate|].
    destruct (utf_8_encode_char_head c Hc) as (b & r' & -> & _). discriminate. }
  assert (Hlf : forall c r1 r2, c <= 0x10FFFF -> c <> LF ->
            Forall (fun c => c <= 0x10FFFF) r2 ->
            linesep os ++ r1 = utf_8_encode_char c ++ encode_text os r2 -> False).
  { intros c r1 r2 Hc Hn Hr2 E. destruct os.
    - change (linesep posix) with (utf_8_encode_char LF) in E.
      apply utf_8_encode_char_inj in E as [E _]; [congruence | discriminate | assumption].
    - destruct (utf_8_encode_char_head c Hc) as (b & r' & Hb & Hlow).
      rewrite Hb in E. injection E as <- E.
      destruct Hlow as [-> ->]; [reflexivity|]. cbn [app] in E.
      symmetry in E. exact (encode_text_nt_head _ _ Hr2 E). }
  induction s1 as [|c1 s1 IH]; intros [|c2 s2] F1 F2 E.
  - reflexivity.
  - apply Forall_cons in F2 as [Hc _]. symmetry in E. destruct (Hne _ _ Hc E).
  - apply Forall_cons in F1 as [Hc _]. destruct (Hne _ _ Hc E).
  - apply Forall_cons in F1 as [Hc1 F1]. apply Forall_cons in F2 as [Hc2 F2].
    cbn [encode_text flat_map] in E. unfold encode_char in E.
    change (flat_map (encode_char os) s1) with (encode_text os s1) in E.
    change (flat_map (encode_char os) s2) with (encode_text os s2) in E.
    destruct (c1 =? LF) eqn:E1, (c2 =? LF) eqn:E2.
    + apply N.eqb_eq in E1, E2. subst. apply app_inv_head in E. f_equal. apply IH; assumption.
    + apply N.eqb_neq in E2. destruct (Hlf _ _ _ Hc2 E2 F2 E).
    + apply N.eqb_neq in E1. symmetry in E. destruct (Hlf _ _ _ Hc1 E1 F1 E).
    + apply utf_8_encode_char_inj in E as [-> E]; [|assumption..].
      f_equal. apply IH; assumption.
Qed.

Lemma encodable_text_bound t :
  forallb encodable t = true -> Forall (fun c => c <= 0x10FFFF) t.
Proof.
  intros H. apply Forall_forall. intros c Hc. apply encodable_bound.
  rewrite forallb_forall in H. apply H. apply list_elem_of_In, Hc.
Qed.

Lemma concatenated_bound texts :
  all_encodable texts -> Forall (fun c => c <= 0x10FFFF) (concatenated texts).
Proof.
  induction 1 as [|t ts Ht _ IH]; [constructor|].
  unfold concatenated. cbn [map concat]. rewrite <- app_assoc.
  apply Forall_app. split; [apply encodable_text_bound, Ht|].
  apply Forall_app. split; [apply encodable_text_bound; reflexivity | exact IH].
Qed.

Lemma headered_from_bound texts : forall i,
  all_encodable texts -> Forall (fun c => c <= 0x10FFFF) (headered_from i texts).
Proof.
  induction texts as [|t ts IH]; intros i H; [constructor|].
  apply Forall_cons in H as [Ht Hts].
  unfold headered_from. cbn [enumerate_from map concat]. rewrite <- app_assoc.
  apply Forall_app. split; [apply encodable_text_bound, page_header_encodable|].
  apply Forall_app. split; [apply encodable_text_bound, Ht | apply IH, Hts].
Qed.

(** ** Reading the pages back *)

Lemma scan_nil_cons {A} (m : str -> option A) c s :
  scan m (c :: s) = [] -> m (c :: s) = None /\ scan m s = [].
Proof.
  simpl. intros H. apply app_eq_nil in H as [H1 H2].
  split; [|assumption]. destruct (m (c :: s)); [discriminate | reflexivity].
Qed.

Lemma find_first_found {A} (m : str -> option A) s a :
  m s = Some a -> find_first m s = Some 0%nat.
Proof. intros H. destruct s; simpl; rewrite H; reflexivity. Qed.

Lemma find_first_nothing {A} (m : str -> option A) s :
  scan m s = [] -> find_first m s = None.
Proof.
  induction s as [|c s IH]; intros H.
  - simpl in *. destruct (m []); [discriminate | reflexivity].
  - apply scan_nil_cons in H as [H1 H2]. simpl. rewrite H1, IH by assumption. reflexivity.
Qed.

(** In a text without a match, followed by a line feed, the first match
    is the first match after the line feed. *)
Lemma find_first_app_LF {A} (m : str -> option A) t r :
  line_local m -> scan m t = [] ->
  find_first m (t ++ LF :: r) = (fun n => length t + 1 + n)%nat <$> find_first m r.
Proof.
  intros Hm. induction t as [|c t IH]; intros H.
  - simpl in H. pose proof (Hm [] r) as E. simpl in E.
    cbn [app find_first]. rewrite E.
    destruct (m []); [discriminate|]. destruct (find_first m r); reflexivity.
  - apply scan_nil_cons in H as [H1 H2].
    pose proof (Hm (c :: t) r) as E. simpl in E.
    cbn [app find_first]. rewrite E, H1, IH by assumption.
    destruct (find_first m r); reflexivity.
Qed.

Lemma no_marker_scan t : occurrences MARKER t = 0%nat -> scan (literal MARKER) t = [].
Proof. rewrite occurrences_scan. apply nil_length_inv. Qed.

Lemma find_first_marker t r :
  occurrences MARKER t = 0%nat ->
  find_first (literal MARKER) (t ++ PAGE_BREAK ++ r) = Some (length t + 2)%nat.
Proof.
  intros Ht.
  assert (Hm : line_local (literal MARKER)) by (apply literal_line_local; decide_closed).
  unfold PAGE_BREAK. rewrite <- !app_assoc. cbn [app].
  rewrite find_first_app_LF by (assumption || apply no_marker_scan, Ht).
  change (LF :: MARKER ++ LF :: LF :: r) with ([] ++ LF :: MARKER ++ LF :: LF :: r).
  rewrite find_first_app_LF by (assumption || reflexivity).
  rewrite (find_first_found _ _ tt).
  - simpl. f_equal. lia.
  - unfold literal.
    replace (startswith (MARKER ++ LF :: LF :: r) MARKER) with true; [reflexivity|].
    symmetry. rewrite startswith_after_prefix, after_prefix_app. reflexivity.
Qed.

(** Two documents none of whose page texts contains the marker, and
    for which the first script writes the same text, have the same page
    texts. *)
Lemma concatenated_inj texts1 : forall texts2,
  Forall (fun t => occurrences MARKER t = 0%nat) texts1 ->
  Forall (fun t => occurrences MARKER t = 0%nat) texts2 ->
  concatenated texts1 = concatenated texts2 ->
  texts1 = texts2.
Proof.
  induction texts1 as [|t1 ts1 IH]; intros [|t2 ts2] H1 H2 E.
  - reflexivity.
  - apply (f_equal length) in E. unfold concatenated in E. simpl in E.
    rewrite !length_app in E. simpl in E. lia.
  - apply (f_equal length) in E. unfold concatenated in E. simpl in E.
    rewrite !length_app in E. simpl in E. lia.
  - apply Forall_cons in H1 as [Ht1 H1]. apply Forall_cons in H2 as [Ht2 H2].
    unfold concatenated in E. cbn [map concat] in E. rewrite <- !app_assoc in E.
    pose proof (f_equal (find_first (literal MARKER)) E) as Hf.
    change (concat (map (fun t => t ++ PAGE_BREAK) ts1)) with (concatenated ts1) in *.
    change (concat (map (fun t => t ++ PAGE_BREAK) ts2)) with (concatenated ts2) in *.
    rewrite !find_first_marker in Hf by assumption.
    injection Hf as Hlen.
    apply app_inj_1 in E as [-> E]; [|lia].
    apply app_inv_head in E. f_equal. apply IH; assumption.
Qed.

(** X15.  The output file of the first script can be read back, octet
    for octet: when two runs on the same platform complete, over
    documents none of whose page texts contains the marker, and the
    documents differ in the number or in the text of their pages, then
    the files the runs leave differ.  Newline translation and UTF-8 lose
    nothing, and the marker keeps the pages apart. *)
Theorem extract_prd_file_tells_pages env1 env2 w1 w2 texts1 texts2 :
  os_name env1 = os_name env2 ->
  nothing_fails env1 w1 (2 + length texts1) texts1 ->
  nothing_fails env2 w2 (2 + length texts2) texts2 ->
  Forall (fun t => occurrences MARKER t = 0%nat) texts1 ->
  Forall (fun t => occurrences MARKER t = 0%nat) texts2 ->
  texts1 <> texts2 ->
  fs (fst (extract_prd env1 w1)) !! PRD_FULL <> fs (fst (extract_prd env2 w2)) !! PRD_FULL.
Proof.
  intros Hos Hok1 Hok2 Hn1 Hn2 Hne.
  rewrite (extract_prd_fs env1 w1 texts1 Hok1), (extract_prd_fs env2 w2 texts2 Hok2).
  cbn [fst fs]. rewrite !lookup_insert_eq, Hos. intros E. injection E as E.
  destruct Hok1 as (_ & r1 & _ & _ & Hall1 & _), Hok2 as (_ & r2 & _ & _ & Hall2 & _).
  apply Hne, concatenated_inj; try assumption.
  apply (encode_text_inj (os_name env2)); [apply concatenated_bound.. | exact E]; assumption.
Qed.

Lemma extract_prd_file_tells_pages_witness :
  fs (fst (extract_prd (sample_env nt example_texts) empty_world)) !! PRD_FULL
  <> fs (fst (extract_prd (sample_env nt [lit "Intro"; lit "BodyEnd"]) empty_world))
       !! PRD_FULL.
Proof.
  apply (extract_prd_file_tells_pages
           (sample_env nt example_texts) (sample_env nt [lit "Intro"; lit "BodyEnd"])
           empty_world empty_world example_texts [lit "Intro"; lit "BodyEnd"]).
  - reflexivity.
  - split; [intros k _; reflexivity|].
    exists (document example_texts).
    split; [reflexivity|]. split; [reflexivity|]. repeat constructor.
  - split; [intros k _; reflexivity|].
    exists (document [lit "Intro"; lit "BodyEnd"]).
    split; [reflexivity|]. split; [reflexivity|]. repeat constructor.
  - repeat constructor.
  - repeat constructor.
  - discriminate.
Defined.

Lemma headered_from_cons i t ts :
  headered_from i (t :: ts) = page_header (i + 1) ++ t ++ headered_from (i + 1) ts.
Proof. unfold headered_from. cbn [enumerate_from map concat]. rewrite <- app_assoc. reflexivity. Qed.

Lemma find_first_header t ts i :
  headers t = [] ->
  find_first header_at (t ++ headered_from i ts)
  = match ts with [] => None | _ :: _ => Some (length t + 1)%nat end.
Proof.
  intros Ht. destruct ts as [|t' ts].
  - unfold headered_from. simpl. rewrite app_nil_r. apply find_first_nothing, Ht.
  - rewrite headered_from_cons, page_header_app.
    rewrite find_first_app_LF by (apply header_at_line_local || exact Ht).
    rewrite (find_first_found _ _ (format_int (i + 1)))
      by apply header_at_HEADER.
    simpl. f_equal. lia.
Qed.

Lemma headered_from_inj texts1 : forall texts2 i,
  Forall (fun t => headers t = []) texts1 ->
  Forall (fun t => headers t = []) texts2 ->
  headered_from i texts1 = headered_from i texts2 ->
  texts1 = texts2.
Proof.
  induction texts1 as [|t1 ts1 IH]; intros [|t2 ts2] i H1 H2 E.
  - reflexivity.
  - rewrite headered_from_cons, page_header_app in E. discriminate E.
  - rewrite headered_from_cons, page_header_app in E. discriminate E.
  - apply Forall_cons in H1 as [Ht1 H1]. apply Forall_cons in H2 as [Ht2 H2].
    rewrite !headered_from_cons in E. apply app_inv_head in E.
    pose proof (f_equal (find_first header_at) E) as Hf.
    rewrite !find_first_header in Hf by assumption.
    destruct ts1 as [|t1' ts1], ts2 as [|t2' ts2]; try discriminate Hf.
    + unfold headered_from in E. simpl in E. rewrite !app_nil_r in E. subst. reflexivity.
    + injection Hf as Hlen.
      apply app_inj_1 in E as [-> E]; [|lia].
      f_equal. apply (IH _ (i + 1)); assumption.
Qed.

(** X16.  The output file of the second script can be read back,
    octet for octet: when two runs on the same platform complete, over
    documents none of whose page texts contains a header, and the
    documents differ in the number or in the text of their pages, then
    the files the runs leave differ. *)
Theorem extract_prd2_file_tells_pages env1 env2 w1 w2 texts1 texts2 :
  os_name env1 = os_name env2 ->
  nothing_fails env1 w1 (2 + 2 * length texts1) texts1 ->
  nothing_fails env2 w2 (2 + 2 * length texts2) texts2 ->
  Forall (fun t => headers t = []) texts1 ->
  Forall (fun t => headers t = []) texts2 ->
  texts1 <> texts2 ->
  fs (fst (extract_prd2 env1 w1)) !! output_path
  <> fs (fst (extract_prd2 env2 w2)) !! output_path.
Proof.
  intros Hos Hok1 Hok2 Hn1 Hn2 Hne.
  rewrite (extract_prd2_fs env1 w1 texts1 Hok1), (extract_prd2_fs env2 w2 texts2 Hok2).
  cbn [fst fs]. rewrite !lookup_insert_eq, Hos. intros E. injection E as E.
  destruct Hok1 as (_ & r1 & _ & _ & Hall1 & _), Hok2 as (_ & r2 & _ & _ & Hall2 & _).
  apply Hne, (headered_from_inj texts1 texts2 0); try assumption.
  apply (encode_text_inj (os_name env2));
    [apply (headered_from_bound _ 0).. | exact E]; assumption.
Qed.

Lemma extract_prd2_file_tells_pages_witness :
  fs (fst (extract_prd2 (sample_env nt example_texts) empty_world)) !! output_path
  <> fs (fst (extract_prd2 (sample_env nt [lit "Intro"; lit "Body"]) empty_world))
       !! output_path.
Proof.
  apply (extract_prd2_file_tells_pages
           (sample_env nt example_texts) (sample_env nt [lit "Intro"; lit "Body"])
           empty_world empty_world example_texts [lit "Intro"; lit "Body"]).
  - reflexivity.
  - split; [intros k _; reflexivity|].
    exists (document example_texts).
    split; [reflexivity|]. split; [reflexivity|]. repeat constructor.
  - split; [intros k _; reflexivity|].
    exists (document [lit "Intro"; lit "Body"]).
    split; [reflexivity|]. split; [reflexivity|]. repeat constructor.
  - repeat constructor.
  - repeat constructor.
  - discriminate.
Defined.

(** ** Markers and headers, whatever the page texts are *)

(** X17.  Without any condition on the page texts: the file of a
    completed run of the first script contains one marker for every page
    and, besides, the markers that the page texts themselves contain. *)
Theorem extract_prd_marker_count_exact env w texts :
  nothing_fails env w (2 + length texts) texts ->
  exists out,
    fs (fst (extract_prd env w)) !! PRD_FULL = Some out /\
    occurrences MARKER out
    = (length texts + sum_list (map (occurrences MARKER) texts))%nat.
Proof.
  intros Hok. rewrite (extract_prd_fs env w texts Hok). cbn [fst fs].
  eexists. split; [apply lookup_insert_eq|].
  rewrite occurrences_encode. apply occurrences_concatenated.
Qed.

Lemma extract_prd_marker_count_exact_witness :
  exists out,
    fs (fst (extract_prd (sample_env nt [MARKER; lit "Body"]) empty_world)) !! PRD_FULL
    = Some out /\
    occurrences MARKER out = 3%nat.
Proof.
  apply (extract_prd_marker_count_exact (sample_env nt [MARKER; lit "Body"]) empty_world
           [MARKER; lit "Body"]).
  split; [intros k _; reflexivity|].
  exists (document [MARKER; lit "Body"]).
  split; [reflexivity|]. split; [reflexivity|]. repeat constructor.
Defined.

(** X18.  Without any condition on the page texts: the headers found in
    the file of a completed run of the second script are, page after
    page, the header of the page followed by the headers that the text of
    the page itself contains. *)
Theorem extract_prd2_headers_exact env w texts :
  nothing_fails env w (2 + 2 * length texts) texts ->
  exists out,
    fs (fst (extract_prd2 env w)) !! output_path = Some out /\
    headers out
    = concat (map (fun '(i, t) => format_int (i + 1) :: headers t) (enumerate texts)).
Proof.
  intros Hok. rewrite (extract_prd2_fs env w texts Hok). cbn [fst fs].
  eexists. split; [apply lookup_insert_eq|].
  rewrite headers_encode. apply headers_headered.
Qed.

Lemma extract_prd2_headers_exact_witness :
  exists out,
    fs (fst (extract_prd2 (sample_env nt [lit "see === PAGE 7 === there"; lit "Body"])
               empty_world)) !! output_path = Some out /\
    headers out = [lit "1"; lit "7"; lit "2"].
Proof.
  apply (extract_prd2_headers_exact
           (sample_env nt [lit "see === PAGE 7 === there"; lit "Body"]) empty_world
           [lit "see === PAGE 7 === there"; lit "Body"]).
  split; [intros k _; reflexivity|].
  exists (document [lit "see === PAGE 7 === there"; lit "Body"]).
  split; [reflexivity|]. split; [reflexivity|]. repeat constructor.
Defined.

(** ** Running a script again after a failure *)

Lemma page_path_os env1 env2 n :
  os_name env1 = os_name env2 -> page_path env1 n = page_path env2 n.
Proof. intros H. rewrite !page_path_eq, H. reflexivity. Qed.

Lemma page_paths_os env1 env2 n :
  os_name env1 = os_name env2 -> page_paths env1 n = page_paths env2 n.
Proof.
  intros H. unfold page_paths. apply map_ext. intros k. apply page_path_os, H.
Qed.

(** The page files written over two file systems that agree on all
    other paths give the same file system. *)
Lemma page_files_ext env texts m1 m2 :
  (forall p, p ∉ page_paths env (length texts) -> m1 !! p = m2 !! p) ->
  page_files env 0 texts m1 = page_files env 0 texts m2.
Proof.
  intros H. apply map_eq. intros p.
  destruct (decide (p ∈ page_paths env (length texts))) as [Hp | Hp].
  - apply elem_of_page_paths in Hp as (k & Hk & ->).
    destruct (lookup_lt_is_Some_2 texts k Hk) as [t Ht].
    rewrite !(page_files_lookup env texts 0 _ k t Ht). reflexivity.
  - rewrite !page_files_frame_0 by assumption. apply H, Hp.
Qed.

(** X19.  A failed run leaves nothing behind that a later run would not
    replace: when a run over the same document completes after a run
    that ended in any way at all, the files are those that the completed
    run alone would have left. *)
Theorem rerun_after_failure env1 env2 w texts :
  same_document env1 env2 ->
  always_succeeds env2 texts ->
  fs (fst (extract_prd env2 (fst (extract_prd env1 w)))) = fs (fst (extract_prd env2 w)) /\
  fs (fst (extract_prd2 env2 (fst (extract_prd2 env1 w))))
  = fs (fst (extract_prd2 env2 w)) /\
  fs (fst (extract_prd_pages env2 (fst (extract_prd_pages env1 w))))
  = fs (fst (extract_prd_pages env2 w)).
Proof.
  intros [Hos Hpdf] Hok.
  rewrite !(extract_prd_fs env2 _ texts), !(extract_prd2_fs env2 _ texts),
    !(extract_prd_pages_fs env2 _ texts) by (apply always_nothing_fails, Hok).
  cbn [fst fs]. split; [|split].
  - destruct (extract_prd_fs_at env1 w) as (m & -> & Hm). apply Hm.
  - destruct (extract_prd2_fs_at env1 w) as (m & -> & Hm). apply Hm.
  - apply page_files_ext. intros p Hp.
    destruct Hok as (_ & reader & Hpdf2 & Htx & _).
    apply (extract_prd_pages_untouched env1 w reader); [congruence|].
    rewrite (page_paths_os env1 env2), (texts_of_length _ _ Htx) by assumption.
    exact Hp.
Qed.

Lemma rerun_after_failure_witness :
  let failing := faulty_env nt (document example_texts) [4%nat] in
  let working := sample_env nt example_texts in
  fs (fst (extract_prd_pages working (fst (extract_prd_pages failing empty_world))))
  = fs (fst (extract_prd_pages working empty_world)).
Proof.
  intros failing working.
  apply (rerun_after_failure failing working empty_world example_texts).
  - split; reflexivity.
  - split; [intros k; reflexivity|].
    exists (document example_texts).
    split; [reflexivity|]. split; [reflexivity|]. repeat constructor.
Defined.
